(** * starknet-hardhat-plugin: the contract factory, the contract handle and
      the transaction status poller of [src/types.ts]

    A shallow embedding of [src/types.ts].  Every definition carries the name
    of the TypeScript function it embeds.

    Conventions of the embedding.
    - A JavaScript string is a [string] that holds the UTF-8 bytes of the
      text, as the output of a command does before [toString()] decodes it;
      the line terminators of the regular expressions are line feed,
      carriage return, and U+2028 and U+2029 as their three bytes.
    - A value that may be [undefined] or [null] is an [option]; the
      truthiness test of JavaScript is written out ([truthy_string],
      [truthy_number], ...).
    - [throw] is the left injection of a sum; code that also talks to the
      external process collaborator lives in the monad [M], which threads the
      trace of the commands issued so far.
    - A promise built by [new Promise(executor)] is followed through the
      activations of [iterativelyCheckStatus] that the timers start; its state
      is a [Wait].
    - What [src/types.ts] imports from modules that are not part of the file
      ([./constants], [./utils], [./adapt], [fs], [JSON]) is a member of the
      class [Externals]. *)

From Stdlib Require Import String Ascii List ZArith Bool Lia.
Import ListNotations.
Open Scope string_scope.
Open Scope list_scope.

Set Implicit Arguments.

(** ** JavaScript primitives used by the file *)

Module Js.

(** [!!s] for a string: only the empty string is falsy. *)
Definition truthy_string (s : string) : bool :=
  match s with
  | EmptyString => false
  | String _ _ => true
  end.

(** [!!v] for a value that is a string, [undefined] or [null]. *)
Definition truthy (v : option string) : bool :=
  match v with
  | None => false
  | Some s => truthy_string s
  end.

(** [!!n] for a number: zero is falsy. *)
Definition truthy_number (n : Z) : bool := negb (n =? 0)%Z.

(** [v === s] for a value that is a string, [undefined] or [null]. *)
Definition strict_eq (v : option string) (s : string) : bool :=
  match v with
  | None => false
  | Some s' => String.eqb s' s
  end.

(** The two line terminators that are one byte: line feed and carriage
    return. *)
Definition isLineBreak (c : ascii) : bool :=
  Ascii.eqb c "010"%char || Ascii.eqb c "013"%char.

(** The two line terminators that are three bytes in UTF-8: U+2028 (226 128
    168) and U+2029 (226 128 169). *)
Definition isSeparator (c1 c2 c3 : ascii) : bool :=
  Ascii.eqb c1 "226"%char && Ascii.eqb c2 "128"%char
  && (Ascii.eqb c3 "168"%char || Ascii.eqb c3 "169"%char).

(** LineTerminator of the regular expression grammar: when one stands at the
    head of [s], the text after it. *)
Definition lineTerminator (s : string) : option string :=
  match s with
  | EmptyString => None
  | String c s' =>
      if isLineBreak c then Some s'
      else match s' with
           | String c2 (String c3 s3) => if isSeparator c c2 c3 then Some s3 else None
           | _ => None
           end
  end.

(** The text matched by a starred dot at the head of [s]: the longest run of
    characters that are not line terminators. *)
Fixpoint dotStar (s : string) : string :=
  match s with
  | EmptyString => EmptyString
  | String c s' =>
      match lineTerminator s with
      | Some _ => EmptyString
      | None => String c (dotStar s')
      end
  end.

(** [s] with the literal [p] removed from its head, when it starts with it. *)
Fixpoint stripPrefix (p s : string) : option string :=
  match p with
  | EmptyString => Some s
  | String a p' =>
      match s with
      | EmptyString => None
      | String b s' => if Ascii.eqb a b then stripPrefix p' s' else None
      end
  end.

(** A regular expression like the two of the file, with the flag [m]: the
    assertion [^], a literal text, one capture group that takes as many
    characters other than line terminators as there are, the assertion [$]. *)
Record RegExp := { literal : string }.

(** The search of [String.prototype.match] for such an expression, from a
    position of the text on: [atLineStart] tells whether [^] matches at the
    position, which it does at the start of the text and after a line
    terminator.  The result is capture group 1 of the first match.  After the
    greedy capture group the assertion [$] holds, since the capture stops at a
    line terminator or at the end of the text. *)
Fixpoint search (re : RegExp) (atLineStart : bool) (s : string) : option string :=
  match (if atLineStart then stripPrefix (literal re) s else None) with
  | Some rest => Some (dotStar rest)
  | None =>
      match s with
      | EmptyString => None
      | String c s' =>
          if isLineBreak c then search re true s'
          else match s' with
               | String c2 (String c3 s3) =>
                   if isSeparator c c2 c3 then search re true s3
                   else search re false s'
               | _ => search re false s'
               end
      end
  end.

(** [response.match(regex)], reduced to [matched[1]]; [None] is the [null]
    of a failed match. *)
Definition match_ (response : string) (regex : RegExp) : option string :=
  search regex true response.

(** [c] put in front of the first of the lines [ls]. *)
Definition extendFirst (c : ascii) (ls : list string) : list string :=
  match ls with
  | l :: rest => String c l :: rest
  | [] => [String c EmptyString]
  end.

(** The lines of a text: the pieces between line terminators.  A text has
    one line more than it has line terminators. *)
Fixpoint lines (s : string) : list string :=
  match s with
  | EmptyString => [EmptyString]
  | String c s' =>
      if isLineBreak c then EmptyString :: lines s'
      else match s' with
           | String c2 (String c3 s3) =>
               if isSeparator c c2 c3 then EmptyString :: lines s3
               else extendFirst c (lines s')
           | _ => extendFirst c (lines s')
           end
  end.

(** The capture of the first line that starts with the literal [p]. *)
Fixpoint firstCapture (p : string) (ls : list string) : option string :=
  match ls with
  | [] => None
  | l :: rest =>
      match stripPrefix p l with
      | Some capture => Some capture
      | None => firstCapture p rest
      end
  end.

(** No line terminator occurs in [s]. *)
Fixpoint singleLine (s : string) : bool :=
  match s with
  | EmptyString => true
  | String c s' =>
      match lineTerminator s with
      | Some _ => false
      | None => singleLine s'
      end
  end.

(** [p] is made of ASCII characters other than line feed and carriage
    return, as the literals of the two regular expressions are. *)
Fixpoint plainText (p : string) : bool :=
  match p with
  | EmptyString => true
  | String a p' => (N_of_ascii a <? 128)%N && negb (isLineBreak a) && plainText p'
  end.

End Js.

(** ** Types of [src/types.ts] *)

(** [TxStatus], a closed union of string literals. *)
Inductive TxStatus : Type :=
| PENDING
| NOT_RECEIVED
| RECEIVED
| REJECTED
| ACCEPTED_ONCHAIN.

Definition TxStatus_eqb (a b : TxStatus) : bool :=
  match a, b with
  | PENDING, PENDING
  | NOT_RECEIVED, NOT_RECEIVED
  | RECEIVED, RECEIVED
  | REJECTED, REJECTED
  | ACCEPTED_ONCHAIN, ACCEPTED_ONCHAIN => true
  | _, _ => false
  end.

(** [Array.prototype.includes] on an array of statuses. *)
Definition includes (xs : list TxStatus) (x : TxStatus) : bool :=
  existsb (TxStatus_eqb x) xs.

(** [StatusObject]: the object returned by [starknet tx_status].
    [block_hash] is [None] when the property is absent or [null]. *)
Record StatusObject := {
  block_hash : option string;
  tx_status : TxStatus
}.

(** What [JSON.parse] makes of the answer to a status query, when it does not
    throw: the value [null], whose properties cannot be read, or a value
    whose properties [block_hash] and [tx_status] are read as those of a
    [StatusObject].  A value without a [tx_status] of the union is neither
    accepted nor rejected, like a status RECEIVED with the same
    [block_hash]. *)
Inductive Parsed : Type :=
| ParsedNull
| ParsedObject (statusObject : StatusObject).

(** ** Status classification *)

Definition ACCEPTABLE_STATUSES : list TxStatus := [PENDING; ACCEPTED_ONCHAIN].

(** The truthiness of the value [isTxAccepted] returns, which is what the
    [if] of [iterativelyCheckStatus] looks at. *)
Definition isTxAccepted (statusObject : StatusObject) : bool :=
  includes ACCEPTABLE_STATUSES (tx_status statusObject)
  && Js.truthy (block_hash statusObject)
  && negb (Js.strict_eq (block_hash statusObject) "pending").

Definition UNACCEPTABLE_STATUSES : list TxStatus := [REJECTED].

Definition isTxRejected (statusObject : StatusObject) : bool :=
  includes UNACCEPTABLE_STATUSES (tx_status statusObject).

(** ** Exceptions *)

(** Where an exception raised outside [src/types.ts] comes from. *)
Inductive Origin : Type :=
| FromAdapt   (* adaptInput, adaptOutput of ./adapt *)
| FromFs      (* fs.readFileSync *)
| FromJSON.   (* a SyntaxError of JSON.parse that nothing catches *)

(** What a [throw] carries. *)
Inductive Thrown : Type :=
| HardhatPluginError (pluginName : string) (message : string)
| Error (message : string)
| TypeError (message : string)
| Raised (origin : Origin) (message : string).

(** A computation that returns or throws. *)
Definition Result (A : Type) : Type := (Thrown + A)%type.

(** ** The external process collaborator *)

(** One call of [runCommand(command, args, paths)]; [paths] is [None]
    when the third argument is left out. *)
Record Command := {
  command : string;
  args : list string;
  paths : option (list string)
}.

(** What [runCommand] resolves to. *)
Record ProcessResult := {
  statusCode : Z;
  stdout : string;
  stderr : string
}.

(** The commands issued so far, oldest first. *)
Definition Trace : Type := list Command.

(** [StarknetWrapper]: its answer to a command may depend on everything it
    was asked before. *)
Definition StarknetWrapper : Type := Trace -> Command -> ProcessResult.

(** Code that may throw and may run commands. *)
Definition M (A : Type) : Type := Trace -> Result A * Trace.

Class Monad (m : Type -> Type) := {
  ret : forall {A}, A -> m A;
  bind : forall {A B}, m A -> (A -> m B) -> m B;
  throw : forall {A}, Thrown -> m A
}.

#[global] Instance Monad_Result : Monad Result := {|
  ret := fun A (a : A) => inr a;
  bind := fun A B (c : Result A) (k : A -> Result B) =>
            match c with
            | inl e => inl e
            | inr a => k a
            end;
  throw := fun A (e : Thrown) => inl e
|}.

#[global] Instance Monad_M : Monad M := {|
  ret := fun A (a : A) (t : Trace) => (inr a, t);
  bind := fun A B (c : M A) (k : A -> M B) (t : Trace) =>
            match c t with
            | (inl e, t') => (inl e, t')
            | (inr a, t') => k a t'
            end;
  throw := fun A (e : Thrown) (t : Trace) => (inl e, t)
|}.

Declare Scope js_scope.
Notation "x <- c ;; k" := (bind c (fun x => k))
  (at level 61, c at next level, right associativity) : js_scope.
Open Scope js_scope.

(** A call of a function that only returns or throws, from code in [M]. *)
Definition lift {A : Type} (c : Result A) : M A := fun t => (c, t).

(** [await starknetWrapper.runCommand(command, args, paths)]. *)
Definition runCommand (starknetWrapper : StarknetWrapper)
    (command : string) (args : list string) (paths : option (list string))
  : M ProcessResult :=
  fun t =>
    let c := {| command := command; args := args; paths := paths |} in
    (inr (starknetWrapper t c), t ++ [c]).

(** ** The contract interface description *)

(** [{name, type}] of an input or an output. *)
Record Argument := {
  arg_name : string;
  arg_type : string
}.

(** An entry of the ABI array.  [name] is [None] when the property is absent
    or [null]; [inputs] and [outputs] are those of a function or
    constructor entry. *)
Record AbiEntry := {
  name : option string;
  type : string;
  inputs : list Argument;
  outputs : list Argument
}.

(** [starknet.Abi]: an object used as a map from entry name to entry, kept as
    its own properties in creation order.  The members an object inherits
    from [Object.prototype] and the special key [__proto__] are left out of
    the model. *)
Definition Abi : Type := list (string * AbiEntry).

(** [abi[key]]. *)
Fixpoint abi_get (key : string) (abi : Abi) : option AbiEntry :=
  match abi with
  | [] => None
  | (k, v) :: rest => if String.eqb k key then Some v else abi_get key rest
  end.

(** [abi[key] = value]: an existing property keeps its place, a new one goes
    last. *)
Fixpoint abi_set (key : string) (value : AbiEntry) (abi : Abi) : Abi :=
  match abi with
  | [] => [(key, value)]
  | (k, v) :: rest =>
      if String.eqb k key then (k, value) :: rest
      else (k, v) :: abi_set key value rest
  end.

(** The value of a decimal digit. *)
Definition digit (c : ascii) : option N :=
  let n := N_of_ascii c in
  if ((48 <=? n) && (n <=? 57))%N then Some (n - 48)%N else None.

(** The number a string of decimal digits denotes. *)
Fixpoint digits (acc : N) (s : string) : option N :=
  match s with
  | EmptyString => Some acc
  | String c s' =>
      match digit c with
      | Some d => digits (10 * acc + d)%N s'
      | None => None
      end
  end.

(** A property key is an array index when it is the canonical decimal
    numeral of an integer below 2^32 - 1; such keys are enumerated first. *)
Definition arrayIndex (key : string) : option N :=
  match key with
  | EmptyString => None
  | String c rest =>
      if Ascii.eqb c "0"%char && Js.truthy_string rest then None
      else match digits 0 key with
           | Some n => if (n <? 4294967295)%N then Some n else None
           | None => None
           end
  end.

Fixpoint insertIndex (k : N * string) (l : list (N * string)) : list (N * string) :=
  match l with
  | [] => [k]
  | h :: t => if (fst k <=? fst h)%N then k :: l else h :: insertIndex k t
  end.

Definition sortIndices (l : list (N * string)) : list (N * string) :=
  fold_right insertIndex [] l.

Fixpoint indexKeys (keys : list string) : list (N * string) :=
  match keys with
  | [] => []
  | k :: rest =>
      match arrayIndex k with
      | Some n => (n, k) :: indexKeys rest
      | None => indexKeys rest
      end
  end.

Definition isArrayIndex (key : string) : bool :=
  match arrayIndex key with
  | Some _ => true
  | None => false
  end.

(** The keys a [for (const key in abi)] loop visits, in order: array indices
    ascending, then the other keys in creation order. *)
Definition forIn (abi : Abi) : list string :=
  let keys := map fst abi in
  map snd (sortIndices (indexKeys keys))
  ++ filter (fun k => negb (isArrayIndex k)) keys.

(** ** Call arguments *)

Section CallArguments.

(** The type of the values of a [StringMap] ([any] in the source). *)
Variable Value : Type.

(** [StringMap]: an object with string keys, as its properties in order. *)
Definition StringMap : Type := list (string * Value).

(** What a caller may pass where a [StringMap] is expected: an object, or
    an array, which [Array.isArray] tells apart. *)
Inductive Args : Type :=
| ArrayArgs (elements : list Value)
| ObjectArgs (fields : StringMap).

(** [Array.isArray(args)], for [args] that may be [undefined]. *)
Definition isArray (args : option Args) : bool :=
  match args with
  | Some (ArrayArgs _) => true
  | _ => false
  end.

(** [Object.keys(args).length]. *)
Definition keysLength (args : Args) : nat :=
  match args with
  | ArrayArgs elements => length elements
  | ObjectArgs fields => length fields
  end.

(** [args && Object.keys(args).length], as a truth value. *)
Definition provided (args : option Args) : bool :=
  match args with
  | None => false
  | Some a => negb (Nat.eqb (keysLength a) 0)
  end.

End CallArguments.

Arguments ArrayArgs {Value} elements.
Arguments ObjectArgs {Value} fields.

(** ** What [src/types.ts] imports *)

(** The constants of [./constants], the adapters of [./utils] and [./adapt],
    and the JavaScript library functions the file calls.  A function that can
    throw returns the message of its exception on the left. *)
Class Externals := {
  (** values of a [StringMap] *)
  Value : Type;
  (** [Numeric = number | bigint], and its [toString()] *)
  Numeric : Type;
  toString : Numeric -> string;
  PLUGIN_NAME : string;
  (** the delay between two status checks, in milliseconds *)
  CHECK_STATUS_TIMEOUT : Z;
  adaptLog : string -> string;
  adaptUrl : string -> string;
  (** [adaptInput(functionName, input, inputSpecs, abi)]; [functionName] is the
      [name] property of an entry when the constructor is adapted *)
  adaptInput : option string -> Args Value -> list Argument -> Abi -> string + list string;
  (** [adaptOutput(rawResult, outputSpecs, abi)] *)
  adaptOutput : string -> list Argument -> Abi -> string + StringMap Value;
  (** [fs.readFileSync(path).toString()] *)
  readFileSync : string -> string + string;
  (** [JSON.parse] of the answer to a status query; [None] when it throws *)
  JSON_parse_status : string -> option Parsed;
  (** [JSON.parse] of an ABI file, read as an array of entries; the message of
      the SyntaxError when it throws *)
  JSON_parse_abi : string -> string + list AbiEntry
}.

(** The result of an imported function, with its exception tagged by where
    it comes from. *)
Definition imported {A : Type} (origin : Origin) (r : string + A) : Result A :=
  match r with
  | inl message => inl (Raised origin message)
  | inr a => inr a
  end.

(** The line feed character, as a string. *)
Definition LF : string := String "010"%char EmptyString.

Section Types.

Context {ext : Externals}.

(** *** Reading the answer to a submission *)

Definition extractFromResponse (response : string) (regex : Js.RegExp) : Result string :=
  match Js.match_ response regex with
  | None =>
      throw (HardhatPluginError PLUGIN_NAME
               "Could not parse response. Check that you're using the correct network.")
  | Some matched1 =>
      if negb (Js.truthy_string matched1)
      then throw (HardhatPluginError PLUGIN_NAME
                    "Could not parse response. Check that you're using the correct network.")
      else ret matched1
  end.

Definition extractTxHash (response : string) : Result string :=
  extractFromResponse response {| Js.literal := "Transaction hash: " |}.

Definition extractAddress (response : string) : Result string :=
  extractFromResponse response {| Js.literal := "Contract address: " |}.

(** *** The status poller *)

Definition checkStatus (txHash : string) (starknetWrapper : StarknetWrapper)
    (gatewayUrl feederGatewayUrl : string) : M Parsed :=
  executed <- runCommand starknetWrapper "starknet"
                ["tx_status";
                 "--hash"; txHash;
                 "--gateway_url"; adaptUrl gatewayUrl;
                 "--feeder_gateway_url"; adaptUrl feederGatewayUrl]
                None ;;
  if Js.truthy_number (statusCode executed)
  then throw (HardhatPluginError PLUGIN_NAME (stderr executed))
  else
    let response := stdout executed in
    match JSON_parse_status response with
    | Some responseParsed => ret responseParsed
    | None =>
        throw (HardhatPluginError PLUGIN_NAME
                 ("Cannot interpret the following: " ++ response))
    end.

(** The [arguments] of an activation of [iterativelyCheckStatus], without
    the two callbacks [resolve] and [reject], which stay those of the
    promise the activation works for. *)
Record PollArguments := {
  poll_txHash : string;
  poll_starknetWrapper : StarknetWrapper;
  poll_gatewayUrl : string;
  poll_feederGatewayUrl : string
}.

(** What an activation of [iterativelyCheckStatus] does before it returns:
    it calls [resolve()], or [reject(reason)], or
    [setTimeout(iterativelyCheckStatus, timeout, ...arguments)]. *)
Inductive Action : Type :=
| CallResolve
| CallReject (reason : Thrown)
| SetTimeout (timeout : Z) (arguments : PollArguments).

(** One activation.  A [throw] out of it (the left injection) rejects the
    promise that the [async] function itself returns.  When what
    [checkStatus] returned is [null], [isTxAccepted] throws a TypeError as it
    reads [statusObject.tx_status]. *)
Definition iterativelyCheckStatus (arguments : PollArguments) : M Action :=
  responseParsed <- checkStatus (poll_txHash arguments) (poll_starknetWrapper arguments)
                      (poll_gatewayUrl arguments) (poll_feederGatewayUrl arguments) ;;
  match responseParsed with
  | ParsedNull =>
      throw (TypeError "Cannot read properties of null (reading 'tx_status')")
  | ParsedObject statusObject =>
      if isTxAccepted statusObject then ret CallResolve
      else if isTxRejected statusObject then ret (CallReject (Error "Transaction rejected."))
      else
        let timeout := CHECK_STATUS_TIMEOUT in
        ret (SetTimeout timeout arguments)
  end.

(** The state of the promise made by
    [new Promise((resolve, reject) => { iterativelyCheckStatus(..., resolve, reject); })].
    The executor drops the promise of the activation it starts, and so does
    the timer: when an activation throws, nothing calls [resolve] or
    [reject] and no timer is left, so the promise stays pending for good
    ([Abandoned]). *)
Inductive Wait (A : Type) : Type :=
| Fulfilled (value : A)
| Rejected (reason : Thrown)
| Polling (timeout : Z) (arguments : PollArguments)
| Abandoned (unhandled : Thrown).

Arguments Fulfilled {A} value.
Arguments Rejected {A} reason.
Arguments Polling {A} timeout arguments.
Arguments Abandoned {A} unhandled.

(** The promise after the executor has run and at most [timers] timers
    have fired; [value] is what [resolve] is called with. *)
Fixpoint newPromise {A : Type} (timers : nat) (arguments : PollArguments) (value : A)
  : Trace -> Wait A * Trace :=
  fun t =>
    match iterativelyCheckStatus arguments t with
    | (inl e, t') => (Abandoned e, t')
    | (inr CallResolve, t') => (Fulfilled value, t')
    | (inr (CallReject reason), t') => (Rejected reason, t')
    | (inr (SetTimeout timeout arguments'), t') =>
        match timers with
        | O => (Polling timeout arguments', t')
        | S timers' => newPromise timers' arguments' value t'
        end
    end.

(** [return new Promise(...)] at the end of an [async] function. *)
Definition returnPromise {A : Type} (timers : nat) (arguments : PollArguments) (value : A)
  : M (Wait A) :=
  fun t => let (w, t') := newPromise timers arguments value t in (inr w, t').

(** *** Reading the ABI *)

(** The loop of [readAbi] over the rest of the array.  [!abiEntry.name]
    holds for an absent name and for an empty one. *)
Fixpoint readAbi_loop (abiArray : list AbiEntry) (abi : Abi) : Result Abi :=
  match abiArray with
  | [] => ret abi
  | abiEntry :: rest =>
      match name abiEntry with
      | None =>
          throw (HardhatPluginError PLUGIN_NAME "Abi entry has no name: [object Object]")
      | Some abiEntry_name =>
          if negb (Js.truthy_string abiEntry_name)
          then throw (HardhatPluginError PLUGIN_NAME "Abi entry has no name: [object Object]")
          else readAbi_loop rest (abi_set abiEntry_name abiEntry abi)
      end
  end.

Definition readAbi (abiPath : string) : Result Abi :=
  abiRaw <- imported FromFs (readFileSync abiPath) ;;
  abiArray <- imported FromJSON (JSON_parse_abi abiRaw) ;;
  readAbi_loop abiArray [].

(** [handleSignature], with the array it pushes to returned. *)
Definition handleSignature (signature : option (list Numeric)) (starknetArgs : list string)
  : list string :=
  match signature with
  | Some parts => (starknetArgs ++ ["--signature"]) ++ map toString parts
  | None => starknetArgs
  end.

(** *** StarknetContract *)

Record StarknetContractConfig := {
  config_starknetWrapper : StarknetWrapper;
  config_abiPath : string;
  config_gatewayUrl : string;
  config_feederGatewayUrl : string
}.

Record StarknetContract := {
  starknetWrapper : StarknetWrapper;
  abi : Abi;
  abiPath : string;
  address : option string;
  gatewayUrl : string;
  feederGatewayUrl : string
}.

(** [new StarknetContract(config)]; [address] starts out [undefined]. *)
Definition StarknetContract_new (config : StarknetContractConfig) : Result StarknetContract :=
  abi <- readAbi (config_abiPath config) ;;
  ret {| starknetWrapper := config_starknetWrapper config;
         abi := abi;
         abiPath := config_abiPath config;
         address := None;
         gatewayUrl := config_gatewayUrl config;
         feederGatewayUrl := config_feederGatewayUrl config |}.

(** [contract.address = address]. *)
Definition set_address (contract : StarknetContract) (a : string) : StarknetContract :=
  {| starknetWrapper := starknetWrapper contract;
     abi := abi contract;
     abiPath := abiPath contract;
     address := Some a;
     gatewayUrl := gatewayUrl contract;
     feederGatewayUrl := feederGatewayUrl contract |}.

Inductive Kind : Type := Invoke | Call.

Definition Kind_string (kind : Kind) : string :=
  match kind with
  | Invoke => "invoke"
  | Call => "call"
  end.

(** [invokeOrCall].  [this.abi[functionName]] is looked up among the entries
    of the index (see [Abi]). *)
Definition invokeOrCall (this : StarknetContract) (kind : Kind) (functionName : string)
    (args : option (Args Value)) (signature : option (list Numeric)) : M ProcessResult :=
  match address this with
  | None => throw (HardhatPluginError PLUGIN_NAME "Contract not deployed")
  | Some this_address =>
      if negb (Js.truthy_string this_address)
      then throw (HardhatPluginError PLUGIN_NAME "Contract not deployed")
      else
        match abi_get functionName (abi this) with
        | None =>
            let msg := ("Function '" ++ functionName ++ "' doesn't exist on this contract.")%string in
            throw (HardhatPluginError PLUGIN_NAME msg)
        | Some func =>
            let starknetArgs :=
              [Kind_string kind;
               "--address"; this_address;
               "--abi"; abiPath this;
               "--function"; functionName;
               "--gateway_url"; adaptUrl (gatewayUrl this);
               "--feeder_gateway_url"; adaptUrl (feederGatewayUrl this)] in
            if isArray args
            then throw (HardhatPluginError PLUGIN_NAME
                          "Arguments should be passed in the form of an object.")
            else
              starknetArgs <-
                match args with
                | Some a =>
                    if negb (Nat.eqb (keysLength a) 0)
                    then
                      adapted <- lift (imported FromAdapt
                                   (adaptInput (Some functionName) a (inputs func) (abi this))) ;;
                      ret ((starknetArgs ++ ["--inputs"]) ++ adapted)
                    else ret starknetArgs
                | None => ret starknetArgs
                end ;;
              let starknetArgs :=
                match signature with
                | Some parts => (starknetArgs ++ ["--signature"]) ++ map toString parts
                | None => starknetArgs
                end in
              executed <- runCommand (starknetWrapper this) "starknet" starknetArgs
                            (Some [abiPath this]) ;;
              if Js.truthy_number (statusCode executed)
              then
                let msg := ("Could not " ++ Kind_string kind ++ " " ++ functionName ++ ":" ++ LF
                            ++ stderr executed)%string in
                let replacedMsg := adaptLog msg in
                throw (HardhatPluginError PLUGIN_NAME replacedMsg)
              else ret executed
        end
  end.

(** [invoke]: the promise it returns rejects with what the body throws
    (left injection) or follows the promise of the status poller. *)
Definition invoke (timers : nat) (this : StarknetContract) (functionName : string)
    (args : option (Args Value)) (signature : option (list Numeric)) : M (Wait unit) :=
  executed <- invokeOrCall this Invoke functionName args signature ;;
  txHash <- lift (extractTxHash (stdout executed)) ;;
  returnPromise timers
    {| poll_txHash := txHash;
       poll_starknetWrapper := starknetWrapper this;
       poll_gatewayUrl := gatewayUrl this;
       poll_feederGatewayUrl := feederGatewayUrl this |}
    tt.

Definition call (this : StarknetContract) (functionName : string)
    (args : option (Args Value)) (signature : option (list Numeric)) : M (StringMap Value) :=
  executed <- invokeOrCall this Call functionName args signature ;;
  match abi_get functionName (abi this) with
  | Some func =>
      adaptedOutput <- lift (imported FromAdapt
                         (adaptOutput (stdout executed) (outputs func) (abi this))) ;;
      ret adaptedOutput
  | None => throw (TypeError "Cannot read properties of undefined (reading 'outputs')")
  end.

(** *** StarknetContractFactory *)

(** [StarknetContractConfig & { metadataPath: string }]. *)
Record StarknetContractFactoryConfig := {
  factoryConfig_base : StarknetContractConfig;
  config_metadataPath : string
}.

Record StarknetContractFactory := {
  factory_starknetWrapper : StarknetWrapper;
  factory_abi : Abi;
  factory_abiPath : string;
  constructorAbi : option AbiEntry;
  metadataPath : string;
  factory_gatewayUrl : string;
  factory_feederGatewayUrl : string
}.

(** The loop "find constructor" of the class constructor: the last entry of
    type constructor that the enumeration visits stays in
    [this.constructorAbi], which is [undefined] without one. *)
Definition findConstructor (abi : Abi) : option AbiEntry :=
  fold_left
    (fun this_constructorAbi abiEntryName =>
       match abi_get abiEntryName abi with
       | Some abiEntry =>
           if String.eqb (type abiEntry) "constructor" then Some abiEntry
           else this_constructorAbi
       | None => this_constructorAbi
       end)
    (forIn abi) None.

(** [new StarknetContractFactory(config)]. *)
Definition StarknetContractFactory_new (config : StarknetContractFactoryConfig)
  : Result StarknetContractFactory :=
  abi <- readAbi (config_abiPath (factoryConfig_base config)) ;;
  ret {| factory_starknetWrapper := config_starknetWrapper (factoryConfig_base config);
         factory_abi := abi;
         factory_abiPath := config_abiPath (factoryConfig_base config);
         constructorAbi := findConstructor abi;
         metadataPath := config_metadataPath config;
         factory_gatewayUrl := config_gatewayUrl (factoryConfig_base config);
         factory_feederGatewayUrl := config_feederGatewayUrl (factoryConfig_base config) |}.

(** [handleConstructorArguments], with the array it pushes to returned. *)
Definition handleConstructorArguments (this : StarknetContractFactory)
    (constructorArguments : option (Args Value)) (starknetArgs : list string)
  : Result (list string) :=
  starknetArgs <-
    match constructorAbi this with
    | Some this_constructorAbi =>
        match constructorArguments with
        | None =>
            throw (HardhatPluginError PLUGIN_NAME
                     "Constructor arguments required but not provided.")
        | Some provided_arguments =>
            if Nat.eqb (keysLength provided_arguments) 0
            then throw (HardhatPluginError PLUGIN_NAME
                          "Constructor arguments required but not provided.")
            else
              construtorArguments <-
                imported FromAdapt
                  (adaptInput (name this_constructorAbi) provided_arguments
                     (inputs this_constructorAbi) (factory_abi this)) ;;
              ret ((starknetArgs ++ ["--inputs"]) ++ construtorArguments)
        end
    | None => ret starknetArgs
    end ;;
  if provided constructorArguments
  then
    match constructorAbi this with
    | None =>
        throw (HardhatPluginError PLUGIN_NAME
                 "Constructor arguments provided but not required.")
    | Some _ => ret starknetArgs
    end
  else ret starknetArgs.

(** Lines 227 to 229 of [deploy]: the address and the transaction hash read
    from the output of the submission. *)
Definition extractDeployment (executedOutput : string) : Result (string * string) :=
  address <- extractAddress executedOutput ;;
  txHash <- extractTxHash executedOutput ;;
  ret (address, txHash).

(** [deploy]: the promise it returns rejects with what the body throws (left
    injection) or follows the promise of the status poller. *)
Definition deploy (timers : nat) (this : StarknetContractFactory)
    (constructorArguments : option (Args Value)) (signature : option (list Numeric))
  : M (Wait StarknetContract) :=
  let starknetArgs :=
    ["deploy";
     "--contract"; metadataPath this;
     "--gateway_url"; adaptUrl (factory_gatewayUrl this)] in
  starknetArgs <- lift (handleConstructorArguments this constructorArguments starknetArgs) ;;
  let starknetArgs := handleSignature signature starknetArgs in
  executed <- runCommand (factory_starknetWrapper this) "starknet" starknetArgs
                (Some [metadataPath this]) ;;
  if Js.truthy_number (statusCode executed)
  then
    let msg := "Could not deploy contract. Check the network url in config. Is it responsive?" in
    throw (HardhatPluginError PLUGIN_NAME msg)
  else
    let executedOutput := stdout executed in
    extracted <- lift (extractDeployment executedOutput) ;;
    let (address, txHash) := (extracted : string * string) in
    contract <- lift (StarknetContract_new
                        {| config_abiPath := factory_abiPath this;
                           config_starknetWrapper := factory_starknetWrapper this;
                           config_feederGatewayUrl := factory_feederGatewayUrl this;
                           config_gatewayUrl := factory_gatewayUrl this |}) ;;
    let contract := set_address contract address in
    returnPromise timers
      {| poll_txHash := txHash;
         poll_starknetWrapper := factory_starknetWrapper this;
         poll_gatewayUrl := factory_gatewayUrl this;
         poll_feederGatewayUrl := factory_feederGatewayUrl this |}
      contract.

Definition getContractAt (this : StarknetContractFactory) (address : string)
  : Result StarknetContract :=
  if negb (Js.truthy_string address)
  then throw (HardhatPluginError PLUGIN_NAME "No address provided")
  else
    contract <- StarknetContract_new
                  {| config_abiPath := factory_abiPath this;
                     config_starknetWrapper := factory_starknetWrapper this;
                     config_feederGatewayUrl := factory_feederGatewayUrl this;
                     config_gatewayUrl := factory_gatewayUrl this |} ;;
    ret (set_address contract address).

End Types.

Arguments Fulfilled {A} value.
Arguments Rejected {A} reason.
Arguments Polling {A} timeout arguments.
Arguments Abandoned {A} unhandled.

(** ** Definitions used to state the properties *)

(** The command [checkStatus] issues. *)
Definition txStatusCommand {ext : Externals} (arguments : PollArguments) : Command :=
  {| command := "starknet";
     args := ["tx_status";
              "--hash"; poll_txHash arguments;
              "--gateway_url"; adaptUrl (poll_gatewayUrl arguments);
              "--feeder_gateway_url"; adaptUrl (poll_feederGatewayUrl arguments)];
     paths := None |}.

(** The trace after [k] more status queries. *)
Definition afterQueries {ext : Externals} (arguments : PollArguments) (t : Trace) (k : nat) : Trace :=
  t ++ repeat (txStatusCommand arguments) k.

(** The status query issued after the commands of [t] succeeds and its
    output parses as [statusObject]. *)
Definition observes {ext : Externals} (arguments : PollArguments) (t : Trace)
    (statusObject : StatusObject) : Prop :=
  let executed := poll_starknetWrapper arguments t (txStatusCommand arguments) in
  statusCode executed = 0%Z
  /\ JSON_parse_status (stdout executed) = Some (ParsedObject statusObject).

(** The block reference of a status is settled: present, not empty, and not
    the sentinel. *)
Definition settled (statusObject : StatusObject) : Prop :=
  Js.truthy (block_hash statusObject) = true
  /\ block_hash statusObject <> Some "pending".

(** The statuses after which the poller goes on: not received, received, or
    pending without a settled block reference. *)
Definition stillPending (statusObject : StatusObject) : Prop :=
  tx_status statusObject = NOT_RECEIVED
  \/ tx_status statusObject = RECEIVED
  \/ (tx_status statusObject = PENDING /\ ~ settled statusObject).

(** The errors of the file, under the names the specification gives them. *)
Definition ContractNotDeployed {ext : Externals} : Thrown :=
  HardhatPluginError PLUGIN_NAME "Contract not deployed".

Definition PositionalArgumentsRejected {ext : Externals} : Thrown :=
  HardhatPluginError PLUGIN_NAME "Arguments should be passed in the form of an object.".

Definition MissingConstructorArguments {ext : Externals} : Thrown :=
  HardhatPluginError PLUGIN_NAME "Constructor arguments required but not provided.".

Definition UnexpectedConstructorArguments {ext : Externals} : Thrown :=
  HardhatPluginError PLUGIN_NAME "Constructor arguments provided but not required.".

Definition UnparsableSubmissionResult {ext : Externals} : Thrown :=
  HardhatPluginError PLUGIN_NAME
    "Could not parse response. Check that you're using the correct network.".


Definition TransactionRejected : Thrown := Error "Transaction rejected.".

(** The formal parameter list of the constructor: that of the constructor
    entry, empty without one. *)
Definition formalParameters (this : StarknetContractFactory) : list Argument :=
  match constructorAbi this with
  | Some entry => inputs entry
  | None => []
  end.

(** A text has a line made of the literal [p] and a capture that is not
    empty. *)
Definition hasLine (p : string) (text : string) : Prop :=
  exists capture : string,
    In (p ++ capture)%string (Js.lines text) /\ capture <> EmptyString.


(** ** A concrete setting, to run the definitions *)

Module Sample.

(** The double quote character, as a string. *)
Definition quote : string := String "034"%char EmptyString.

Definition quoted (s : string) : string := (quote ++ s ++ quote)%string.

Definition TxStatus_text (s : TxStatus) : string :=
  match s with
  | PENDING => "PENDING"
  | NOT_RECEIVED => "NOT_RECEIVED"
  | RECEIVED => "RECEIVED"
  | REJECTED => "REJECTED"
  | ACCEPTED_ONCHAIN => "ACCEPTED_ONCHAIN"
  end.

(** The JSON text of a status object. *)
Definition statusText (statusObject : StatusObject) : string :=
  ("{" ++ quoted "block_hash" ++ ": "
   ++ match block_hash statusObject with
      | Some h => quoted h
      | None => "null"
      end
   ++ ", " ++ quoted "tx_status" ++ ": " ++ quoted (TxStatus_text (tx_status statusObject))
   ++ "}")%string.

Definition accepted_0x1 : StatusObject :=
  {| block_hash := Some "0x1"; tx_status := ACCEPTED_ONCHAIN |}.
Definition pending_pending : StatusObject :=
  {| block_hash := Some "pending"; tx_status := PENDING |}.
Definition received_null : StatusObject :=
  {| block_hash := None; tx_status := RECEIVED |}.
Definition rejected_0x1 : StatusObject :=
  {| block_hash := Some "0x1"; tx_status := REJECTED |}.

(** A [JSON.parse] that knows the text of [null] and the texts of four
    status objects. *)
Definition parseStatus (text : string) : option Parsed :=
  if String.eqb text "null" then Some ParsedNull
  else
    option_map ParsedObject
      (find (fun statusObject => String.eqb (statusText statusObject) text)
         [accepted_0x1; pending_pending; received_null; rejected_0x1]).

Definition felt (n : string) : Argument := {| arg_name := n; arg_type := "felt" |}.

Definition increase_balance : AbiEntry :=
  {| name := Some "increase_balance"; type := "function";
     inputs := [felt "amount"]; outputs := [] |}.

Definition get_balance : AbiEntry :=
  {| name := Some "get_balance"; type := "function";
     inputs := []; outputs := [felt "res"] |}.

(** A constructor that takes no argument. *)
Definition constructor_plain : AbiEntry :=
  {| name := Some "constructor"; type := "constructor"; inputs := []; outputs := [] |}.

Definition nameless : AbiEntry :=
  {| name := None; type := "function"; inputs := []; outputs := [] |}.

(** The files of the sample project, and what their contents parse to. *)
Definition files (path : string) : string + string :=
  if String.eqb path "contract_abi.json" then inr "contract"
  else if String.eqb path "plain_abi.json" then inr "plain"
  else if String.eqb path "nameless_abi.json" then inr "nameless"
  else inl "ENOENT: no such file or directory".

Definition parseAbi (abiRaw : string) : string + list AbiEntry :=
  if String.eqb abiRaw "contract" then inr [increase_balance; get_balance]
  else if String.eqb abiRaw "plain" then inr [constructor_plain; get_balance]
  else if String.eqb abiRaw "nameless" then inr [get_balance; nameless]
  else inl "Unexpected token".

Definition externals : Externals := {|
  Value := string;
  Numeric := string;
  toString := fun part => part;
  PLUGIN_NAME := "Starknet";
  CHECK_STATUS_TIMEOUT := 5000;
  adaptLog := fun msg => msg;
  adaptUrl := fun url => url;
  adaptInput := fun _ input _ _ =>
                  match input with
                  | ObjectArgs fields => inr (map snd fields)
                  | ArrayArgs _ => inl "not an object"
                  end;
  adaptOutput := fun rawResult outputSpecs _ =>
                   inr (map (fun spec => (arg_name spec, rawResult)) outputSpecs);
  readFileSync := files;
  JSON_parse_status := parseStatus;
  JSON_parse_abi := parseAbi
|}.

(** A wrapper that answers the n-th command with the n-th result of a script,
    and with [otherwise] once the script is over. *)
Definition scripted (script : list ProcessResult) (otherwise : ProcessResult)
  : StarknetWrapper :=
  fun t _ => nth (length t) script otherwise.

(** A wrapper that gives every command the same answer. *)
Definition always (answer : ProcessResult) : StarknetWrapper :=
  fun _ _ => answer.

Definition ok (output : string) : ProcessResult :=
  {| statusCode := 0; stdout := output; stderr := EmptyString |}.

Definition failed (diagnostic : string) : ProcessResult :=
  {| statusCode := 1; stdout := EmptyString; stderr := diagnostic |}.

Definition pollArguments (w : StarknetWrapper) : PollArguments :=
  {| poll_txHash := "0x2";
     poll_starknetWrapper := w;
     poll_gatewayUrl := "http://localhost:5000";
     poll_feederGatewayUrl := "http://localhost:5000" |}.

(** A handle on the sample contract. *)
Definition contract (w : StarknetWrapper) (a : option string) : StarknetContract :=
  {| starknetWrapper := w;
     abi := [("increase_balance", increase_balance); ("get_balance", get_balance)];
     abiPath := "contract_abi.json";
     address := a;
     gatewayUrl := "http://localhost:5000";
     feederGatewayUrl := "http://localhost:5000" |}.

(** A factory for a contract whose constructor takes no argument. *)
Definition plainFactory (w : StarknetWrapper) : StarknetContractFactory :=
  {| factory_starknetWrapper := w;
     factory_abi := [("constructor", constructor_plain); ("get_balance", get_balance)];
     factory_abiPath := "plain_abi.json";
     constructorAbi := Some constructor_plain;
     metadataPath := "plain.json";
     factory_gatewayUrl := "http://localhost:5000";
     factory_feederGatewayUrl := "http://localhost:5000" |}.

(** A factory for a contract without constructor. *)
Definition factory (w : StarknetWrapper) : StarknetContractFactory :=
  {| factory_starknetWrapper := w;
     factory_abi := [("increase_balance", increase_balance); ("get_balance", get_balance)];
     factory_abiPath := "contract_abi.json";
     constructorAbi := None;
     metadataPath := "contract.json";
     factory_gatewayUrl := "http://localhost:5000";
     factory_feederGatewayUrl := "http://localhost:5000" |}.

(** The output of a deployment whose first address line is empty. *)
Definition outputWithEmptyAddressLine : string :=
  ("Contract address: " ++ LF
   ++ "Contract address: 0x1" ++ LF
   ++ "Transaction hash: 0x2")%string.

Definition deployOutput : string :=
  ("Deploy transaction was sent." ++ LF
   ++ "Contract address: 0x1" ++ LF
   ++ "Transaction hash: 0x2")%string.

Definition invokeOutput : string :=
  ("Invoke transaction was sent." ++ LF
   ++ "Contract address: 0x1" ++ LF
   ++ "Transaction hash: 0x2")%string.

End Sample.


(** ** Definitions used to state further properties *)

(** The statuses that are neither accepted nor rejected. *)
Definition pollsAgain (statusObject : StatusObject) : Prop :=
  tx_status statusObject = NOT_RECEIVED
  \/ tx_status statusObject = RECEIVED
  \/ ((tx_status statusObject = PENDING \/ tx_status statusObject = ACCEPTED_ONCHAIN)
      /\ ~ settled statusObject).

Definition DeploymentRejected {ext : Externals} : Thrown :=
  HardhatPluginError PLUGIN_NAME
    "Could not deploy contract. Check the network url in config. Is it responsive?".

Definition UnknownFunction {ext : Externals} (functionName : string) : Thrown :=
  HardhatPluginError PLUGIN_NAME
    ("Function '" ++ functionName ++ "' doesn't exist on this contract.").

Definition EmptyAddress {ext : Externals} : Thrown :=
  HardhatPluginError PLUGIN_NAME "No address provided".

(** The property names every object inherits from [Object.prototype]; a
    lookup of one of them in the index finds the inherited member when the
    index has no entry of that name. *)
Definition objectPrototypeMembers : list string :=
  ["constructor"; "__defineGetter__"; "__defineSetter__"; "hasOwnProperty";
   "__lookupGetter__"; "__lookupSetter__"; "isPrototypeOf"; "propertyIsEnumerable";
   "toString"; "valueOf"; "__proto__"; "toLocaleString"].

(** The last entry of the array that has the name [key]. *)
Definition lastNamed (key : string) (abiArray : list AbiEntry) : option AbiEntry :=
  find (fun abiEntry => Js.strict_eq (name abiEntry) key) (rev abiArray).

(** Lines put together with line feeds between them. *)
Fixpoint joinLines (ls : list string) : string :=
  match ls with
  | [] => EmptyString
  | [l] => l
  | l :: rest => (l ++ LF ++ joinLines rest)%string
  end.

(** The arguments [deploy] starts the poller with. *)
Definition factoryPoll (this : StarknetContractFactory) (txHash : string) : PollArguments :=
  {| poll_txHash := txHash;
     poll_starknetWrapper := factory_starknetWrapper this;
     poll_gatewayUrl := factory_gatewayUrl this;
     poll_feederGatewayUrl := factory_feederGatewayUrl this |}.

(** The arguments [invoke] starts the poller with. *)
Definition contractPoll (this : StarknetContract) (txHash : string) : PollArguments :=
  {| poll_txHash := txHash;
     poll_starknetWrapper := starknetWrapper this;
     poll_gatewayUrl := gatewayUrl this;
     poll_feederGatewayUrl := feederGatewayUrl this |}.

(** The configuration [deploy] and [getContractAt] build a handle from. *)
Definition factoryContractConfig (this : StarknetContractFactory) : StarknetContractConfig :=
  {| config_abiPath := factory_abiPath this;
     config_starknetWrapper := factory_starknetWrapper this;
     config_feederGatewayUrl := factory_feederGatewayUrl this;
     config_gatewayUrl := factory_gatewayUrl this |}.

(** The command [deploy] submits, from the arguments that
    [handleConstructorArguments] left. *)
Definition deployCommand {ext : Externals} (this : StarknetContractFactory)
    (starknetArgs : list string) (signature : option (list Numeric)) : Command :=
  {| command := "starknet";
     args := handleSignature signature starknetArgs;
     paths := Some [metadataPath this] |}.

(** The arguments [deploy] starts from. *)
Definition deployArgs {ext : Externals} (this : StarknetContractFactory) : list string :=
  ["deploy"; "--contract"; metadataPath this;
   "--gateway_url"; adaptUrl (factory_gatewayUrl this)].

(** The arguments [invokeOrCall] starts from. *)
Definition invokeOrCallArgs {ext : Externals} (this : StarknetContract) (kind : Kind)
    (functionName this_address : string) : list string :=
  [Kind_string kind;
   "--address"; this_address;
   "--abi"; abiPath this;
   "--function"; functionName;
   "--gateway_url"; adaptUrl (gatewayUrl this);
   "--feeder_gateway_url"; adaptUrl (feederGatewayUrl this)].

(** The command [invokeOrCall] submits. *)
Definition invokeOrCallCommand (this : StarknetContract) (starknetArgs : list string)
  : Command :=
  {| command := "starknet";
     args := starknetArgs;
     paths := Some [abiPath this] |}.

(** The error [invokeOrCall] throws when the command fails. *)
Definition InvocationFailed {ext : Externals} (kind : Kind) (functionName : string)
    (executed : ProcessResult) : Thrown :=
  HardhatPluginError PLUGIN_NAME
    (adaptLog ("Could not " ++ Kind_string kind ++ " " ++ functionName ++ ":" ++ LF
               ++ stderr executed)).

(** A setting whose ABI file declares the function transfer twice. *)
Module Duplicates.

Definition first_transfer : AbiEntry :=
  {| name := Some "transfer"; type := "function";
     inputs := [Sample.felt "to"]; outputs := [] |}.

Definition second_transfer : AbiEntry :=
  {| name := Some "transfer"; type := "function";
     inputs := [Sample.felt "to"; Sample.felt "amount"]; outputs := [] |}.

Definition abiArray : list AbiEntry :=
  [first_transfer; Sample.get_balance; second_transfer].

Definition externals : Externals := {|
  Value := string;
  Numeric := string;
  toString := fun part => part;
  PLUGIN_NAME := "Starknet";
  CHECK_STATUS_TIMEOUT := 5000;
  adaptLog := fun msg => msg;
  adaptUrl := fun url => url;
  adaptInput := fun _ input _ _ =>
                  match input with
                  | ObjectArgs fields => inr (map snd fields)
                  | ArrayArgs _ => inl "not an object"
                  end;
  adaptOutput := fun rawResult outputSpecs _ =>
                   inr (map (fun spec => (arg_name spec, rawResult)) outputSpecs);
  readFileSync := fun _ => inr "token_abi";
  JSON_parse_status := Sample.parseStatus;
  JSON_parse_abi := fun _ => inr abiArray
|}.

End Duplicates.

(** * Properties *)

(** ** The status poller *)

Section Poller.

Context {ext : Externals}.

Lemma isTxAccepted_spec (statusObject : StatusObject) :
  isTxAccepted statusObject = true <->
  (tx_status statusObject = PENDING \/ tx_status statusObject = ACCEPTED_ONCHAIN)
  /\ settled statusObject.
Proof.
  destruct statusObject as [h s]. unfold isTxAccepted, settled. cbn [block_hash tx_status].
  rewrite !andb_true_iff, negb_true_iff. split.
  - intros [[Hs Hh] Hp]. repeat split; trivial.
    + destruct s; cbn in Hs; try discriminate; auto.
    + intros ->. cbn in Hp. discriminate.
  - intros [Hs [Hh Hp]]. repeat split; trivial.
    + destruct Hs as [-> | ->]; reflexivity.
    + destruct h as [h|]; cbn; trivial.
      destruct (String.eqb_spec h "pending"); trivial. subst. now elim Hp.
Qed.

Lemma isTxRejected_spec (statusObject : StatusObject) :
  isTxRejected statusObject = true <-> tx_status statusObject = REJECTED.
Proof.
  destruct statusObject as [h s]. unfold isTxRejected. cbn [tx_status].
  destruct s; cbn; split; intros H; try discriminate; trivial.
Qed.

Lemma stillPending_spec (statusObject : StatusObject) :
  stillPending statusObject ->
  isTxAccepted statusObject = false /\ isTxRejected statusObject = false.
Proof.
  intros H. split.
  - destruct (isTxAccepted statusObject) eqn:E; trivial.
    apply isTxAccepted_spec in E. destruct E as [Hs Hb].
    destruct H as [H | [H | [H Hn]]].
    + rewrite H in Hs. destruct Hs; discriminate.
    + rewrite H in Hs. destruct Hs; discriminate.
    + now elim Hn.
  - destruct (isTxRejected statusObject) eqn:E; trivial.
    apply isTxRejected_spec in E.
    destruct H as [H | [H | [H _]]]; rewrite H in E; discriminate.
Qed.

(** What one activation comes to, read off the answer to its status query. *)
Lemma iterativelyCheckStatus_run (arguments : PollArguments) (t : Trace) :
  iterativelyCheckStatus arguments t =
  (let executed := poll_starknetWrapper arguments t (txStatusCommand arguments) in
   if Js.truthy_number (statusCode executed)
   then inl (HardhatPluginError PLUGIN_NAME (stderr executed))
   else match JSON_parse_status (stdout executed) with
        | Some (ParsedObject statusObject) =>
            if isTxAccepted statusObject then inr CallResolve
            else if isTxRejected statusObject then inr (CallReject TransactionRejected)
            else inr (SetTimeout CHECK_STATUS_TIMEOUT arguments)
        | Some ParsedNull =>
            inl (TypeError "Cannot read properties of null (reading 'tx_status')")
        | None =>
            inl (HardhatPluginError PLUGIN_NAME
                   ("Cannot interpret the following: " ++ stdout executed))
        end,
   t ++ [txStatusCommand arguments]).
Proof.
  unfold iterativelyCheckStatus, checkStatus, runCommand, txStatusCommand.
  cbn -[isTxAccepted isTxRejected].
  destruct (Js.truthy_number _); trivial.
  destruct (JSON_parse_status _) as [[|statusObject]|]; trivial.
  cbn -[isTxAccepted isTxRejected].
  destruct (isTxAccepted statusObject); trivial.
  destruct (isTxRejected statusObject); trivial.
Qed.

Lemma truthy_number_false (n : Z) : Js.truthy_number n = false <-> n = 0%Z.
Proof.
  unfold Js.truthy_number. rewrite negb_false_iff. apply Z.eqb_eq.
Qed.

Lemma iterativelyCheckStatus_observed (arguments : PollArguments) (t : Trace)
    (statusObject : StatusObject) :
  observes arguments t statusObject ->
  iterativelyCheckStatus arguments t =
  (if isTxAccepted statusObject then inr CallResolve
   else if isTxRejected statusObject then inr (CallReject TransactionRejected)
   else inr (SetTimeout CHECK_STATUS_TIMEOUT arguments),
   t ++ [txStatusCommand arguments]).
Proof.
  intros [Hc Hp]. rewrite iterativelyCheckStatus_run. cbv zeta.
  apply truthy_number_false in Hc. rewrite Hc, Hp. reflexivity.
Qed.

(** An activation returns an action only for a status it observed. *)
Lemma iterativelyCheckStatus_returns (arguments : PollArguments) (t : Trace) (a : Action) :
  fst (iterativelyCheckStatus arguments t) = inr a ->
  exists statusObject,
    observes arguments t statusObject
    /\ a = (if isTxAccepted statusObject then CallResolve
            else if isTxRejected statusObject then CallReject TransactionRejected
            else SetTimeout CHECK_STATUS_TIMEOUT arguments).
Proof.
  rewrite iterativelyCheckStatus_run. cbn [fst]. cbv zeta.
  destruct (Js.truthy_number _) eqn:Hc; [discriminate|].
  destruct (JSON_parse_status _) as [[|statusObject]|] eqn:Hp; [discriminate| |discriminate].
  intros H. exists statusObject. split.
  - split; trivial. now apply truthy_number_false.
  - destruct (isTxAccepted statusObject); [congruence|].
    destruct (isTxRejected statusObject); congruence.
Qed.

Lemma afterQueries_S (arguments : PollArguments) (t : Trace) (k : nat) :
  afterQueries arguments (t ++ [txStatusCommand arguments]) k
  = afterQueries arguments t (S k).
Proof.
  unfold afterQueries. rewrite <- app_assoc. reflexivity.
Qed.

(** While the statuses observed are all still pending, the promise only
    moves on to the next timer. *)
Lemma newPromise_skip (A : Type) (value : A) (arguments : PollArguments) (k : nat) :
  forall (timers : nat) (t : Trace),
    (forall i, i < k ->
       exists statusObject,
         observes arguments (afterQueries arguments t i) statusObject
         /\ stillPending statusObject) ->
    newPromise (k + timers) arguments value t
    = newPromise timers arguments value (afterQueries arguments t k).
Proof.
  induction k as [|k IH]; intros timers t H.
  - unfold afterQueries. cbn. now rewrite app_nil_r.
  - destruct (H 0) as [statusObject [Ho Hs]]; [lia|].
    unfold afterQueries in Ho. cbn in Ho. rewrite app_nil_r in Ho.
    cbn [Nat.add newPromise].
    rewrite (iterativelyCheckStatus_observed Ho).
    destruct (stillPending_spec Hs) as [-> ->].
    rewrite IH.
    + now rewrite afterQueries_S.
    + intros i Hi. rewrite afterQueries_S. apply H. lia.
Qed.

End Poller.

(** A failed or unreadable status query ends the polling without touching
    the promise: the activation throws, so neither callback is called and no
    timer is set. *)
Lemma newPromise_abandoned {ext : Externals} (A : Type) (value : A)
    (timers : nat) (arguments : PollArguments) (t : Trace) :
  let executed := poll_starknetWrapper arguments t (txStatusCommand arguments) in
  statusCode executed <> 0%Z \/ JSON_parse_status (stdout executed) = None ->
  exists message,
    newPromise timers arguments value t
    = (Abandoned (HardhatPluginError PLUGIN_NAME message),
       t ++ [txStatusCommand arguments]).
Proof.
  intros executed H.
  assert (E : exists message,
             iterativelyCheckStatus arguments t
             = (inl (HardhatPluginError PLUGIN_NAME message),
                t ++ [txStatusCommand arguments])).
  { rewrite iterativelyCheckStatus_run. fold executed. cbv zeta.
    destruct (Js.truthy_number (statusCode executed)) eqn:Hc.
    - eexists. reflexivity.
    - destruct H as [H | H].
      + apply truthy_number_false in Hc. contradiction.
      + rewrite H. eexists. reflexivity. }
  destruct E as [message E]. exists message.
  destruct timers; cbn [newPromise]; rewrite E; reflexivity.
Qed.

(** C1: the poller resolves the wait exactly for a status PENDING or
    ACCEPTED_ONCHAIN whose block hash is present (truthy) and is not the
    sentinel pending.  First for the classification [isTxAccepted], then for
    one activation of the poller and for the promise right after its
    executor ran, and last for the two statuses the claim names. *)
Theorem isTxAccepted_iff_acceptable_and_settled :
  (forall statusObject : StatusObject,
     isTxAccepted statusObject = true <->
     (tx_status statusObject = PENDING \/ tx_status statusObject = ACCEPTED_ONCHAIN)
     /\ Js.truthy (block_hash statusObject) = true
     /\ block_hash statusObject <> Some "pending")
  /\ (forall (ext : Externals) (arguments : PollArguments) (t : Trace),
        fst (iterativelyCheckStatus arguments t) = inr CallResolve <->
        exists statusObject,
          observes arguments t statusObject /\ isTxAccepted statusObject = true)
  /\ (forall (ext : Externals) (A : Type) (value : A) (arguments : PollArguments) (t : Trace),
        fst (newPromise 0 arguments value t) = Fulfilled value <->
        exists statusObject,
          observes arguments t statusObject /\ isTxAccepted statusObject = true)
  /\ isTxAccepted {| block_hash := Some "pending"; tx_status := PENDING |} = false
  /\ isTxAccepted {| block_hash := None; tx_status := RECEIVED |} = false.
Proof.
  split; [|split; [|split; [|split; reflexivity]]].
  - intros statusObject. apply isTxAccepted_spec.
  - intros ext arguments t. split.
    + intros H. destruct (iterativelyCheckStatus_returns _ _ H) as [statusObject [Ho Ha]].
      exists statusObject. split; trivial.
      destruct (isTxAccepted statusObject); trivial.
      destruct (isTxRejected statusObject); discriminate.
    + intros [statusObject [Ho Ha]].
      rewrite (iterativelyCheckStatus_observed Ho), Ha. reflexivity.
  - intros ext A value arguments t. cbn [newPromise]. split.
    + intros H.
      destruct (iterativelyCheckStatus arguments t) as [[e | a] t'] eqn:E; cbn in H.
      * discriminate.
      * assert (E' : fst (iterativelyCheckStatus arguments t) = inr a) by now rewrite E.
        destruct (iterativelyCheckStatus_returns _ _ E') as [statusObject [Ho Ha]].
        exists statusObject. split; trivial.
        destruct (isTxAccepted statusObject); trivial.
        destruct (isTxRejected statusObject); subst a; discriminate.
    + intros [statusObject [Ho Ha]].
      rewrite (iterativelyCheckStatus_observed Ho), Ha. reflexivity.
Qed.

(** C3, evaluated on the code: a contract handle is asked to invoke
    increase_balance; the submission succeeds, and the status query that
    follows exits with status 1 (first and second statement, for [invoke] and
    [deploy]) or prints text that is not JSON (third statement).
    [checkStatus] throws inside the activation of [iterativelyCheckStatus],
    whose promise nobody holds: the promise of the caller is neither
    fulfilled nor rejected, however many timers are waited for, and no timer
    is left to fire. *)
Theorem failed_status_query_leaves_wait_pending :
  forall timers : nat,
    fst (invoke (ext := Sample.externals) timers
           (Sample.contract
              (Sample.scripted [Sample.ok Sample.invokeOutput]
                 (Sample.failed "Connection refused"))
              (Some "0x1"))
           "increase_balance" (Some (ObjectArgs [("amount", "10")])) None [])
    = inr (Abandoned (HardhatPluginError "Starknet" "Connection refused"))
    /\ fst (deploy (ext := Sample.externals) timers
              (Sample.factory
                 (Sample.scripted [Sample.ok Sample.deployOutput]
                    (Sample.failed "Connection refused")))
              None None [])
       = inr (Abandoned (HardhatPluginError "Starknet" "Connection refused"))
    /\ fst (invoke (ext := Sample.externals) timers
              (Sample.contract
                 (Sample.scripted [Sample.ok Sample.invokeOutput]
                    (Sample.ok "<html>Bad Gateway</html>"))
                 (Some "0x1"))
              "increase_balance" (Some (ObjectArgs [("amount", "10")])) None [])
       = inr (Abandoned
                (HardhatPluginError "Starknet"
                   "Cannot interpret the following: <html>Bad Gateway</html>")).
Proof.
  intros timers. destruct timers; repeat split; reflexivity.
Qed.

(** C4: a status that is NOT_RECEIVED, RECEIVED, or PENDING without a
    settled block reference makes the activation set a timer for
    [CHECK_STATUS_TIMEOUT] that calls [iterativelyCheckStatus] again with the
    same arguments; as long as such statuses are observed the promise is
    still polling, after any number of timers; and whatever is observed, the
    promise is fulfilled (Accepted), rejected with the rejection error
    (Rejected), left after an activation threw (ParseError: the plugin error
    of [checkStatus] for a failed query or for text that is not JSON, or the
    TypeError of reading the status of [null]), or still polling. *)
Theorem pending_status_polls_again_without_bound :
  forall (ext : Externals) (A : Type) (value : A) (arguments : PollArguments),
    (forall (t : Trace) (statusObject : StatusObject),
       observes arguments t statusObject ->
       stillPending statusObject ->
       iterativelyCheckStatus arguments t
       = (inr (SetTimeout CHECK_STATUS_TIMEOUT arguments),
          t ++ [txStatusCommand arguments]))
    /\ (forall (timers : nat) (t : Trace),
          (forall i, i <= timers ->
             exists statusObject,
               observes arguments (afterQueries arguments t i) statusObject
               /\ stillPending statusObject) ->
          newPromise timers arguments value t
          = (Polling CHECK_STATUS_TIMEOUT arguments,
             afterQueries arguments t (S timers)))
    /\ (forall (timers : nat) (t : Trace),
          let wait := fst (newPromise timers arguments value t) in
          wait = Fulfilled value
          \/ wait = Rejected TransactionRejected
          \/ (exists message,
                wait = Abandoned (HardhatPluginError PLUGIN_NAME message)
                \/ wait = Abandoned (TypeError message))
          \/ wait = Polling CHECK_STATUS_TIMEOUT arguments).
Proof.
  intros ext A value arguments. split; [|split].
  - intros t statusObject Ho Hs.
    rewrite (iterativelyCheckStatus_observed Ho).
    destruct (stillPending_spec Hs) as [-> ->]. reflexivity.
  - intros timers t H.
    rewrite <- (Nat.add_0_r timers) at 1.
    rewrite newPromise_skip by (intros i Hi; apply H; lia).
    destruct (H timers) as [statusObject [Ho Hs]]; [lia|].
    cbn [newPromise]. rewrite (iterativelyCheckStatus_observed Ho).
    destruct (stillPending_spec Hs) as [-> ->].
    unfold afterQueries. rewrite <- app_assoc.
    change [txStatusCommand arguments] with (repeat (txStatusCommand arguments) 1).
    rewrite <- repeat_app, Nat.add_1_r. reflexivity.
  - intros timers. induction timers as [|timers IH]; intros t wait; subst wait;
      cbn [newPromise]; rewrite iterativelyCheckStatus_run; cbv zeta;
      destruct (Js.truthy_number _);
      try (right; right; left; eexists; left; reflexivity);
      destruct (JSON_parse_status _) as [[|statusObject]|];
      try (right; right; left; eexists; left; reflexivity);
      try (right; right; left; eexists; right; reflexivity);
      destruct (isTxAccepted statusObject); try (left; reflexivity);
      destruct (isTxRejected statusObject); try (right; left; reflexivity).
    + right; right; right. reflexivity.
    + apply IH.
Qed.

(** The sample poller, asked about a transaction that stays RECEIVED, is
    still polling after four status queries. *)
Lemma pending_status_polls_again_without_bound_witness :
  newPromise (ext := Sample.externals) 3
    (Sample.pollArguments (Sample.always (Sample.ok (Sample.statusText Sample.received_null))))
    tt []
  = (Polling 5000
       (Sample.pollArguments (Sample.always (Sample.ok (Sample.statusText Sample.received_null)))),
     afterQueries (ext := Sample.externals)
       (Sample.pollArguments (Sample.always (Sample.ok (Sample.statusText Sample.received_null))))
       [] 4).
Proof.
  apply (proj1 (proj2 (@pending_status_polls_again_without_bound Sample.externals unit tt
                         (Sample.pollArguments
                            (Sample.always (Sample.ok (Sample.statusText Sample.received_null))))))).
  intros i _. exists Sample.received_null. split.
  - split; reflexivity.
  - right; left; reflexivity.
Defined.

(** C5: a status REJECTED is classified as rejected and not as accepted; the
    activation that observes it calls [reject] with the transaction-rejected
    error; and the promise of the caller, after any number of polls that
    found the transaction still pending, is rejected with that error. *)
Theorem rejected_status_rejects_wait :
  forall (ext : Externals) (A : Type) (value : A) (arguments : PollArguments)
         (statusObject : StatusObject),
    tx_status statusObject = REJECTED ->
    isTxRejected statusObject = true
    /\ isTxAccepted statusObject = false
    /\ (forall t : Trace,
          observes arguments t statusObject ->
          iterativelyCheckStatus arguments t
          = (inr (CallReject (Error "Transaction rejected.")),
             t ++ [txStatusCommand arguments]))
    /\ (forall (k timers : nat) (t : Trace),
          (forall i, i < k ->
             exists earlier,
               observes arguments (afterQueries arguments t i) earlier
               /\ stillPending earlier) ->
          observes arguments (afterQueries arguments t k) statusObject ->
          newPromise (k + timers) arguments value t
          = (Rejected (Error "Transaction rejected."),
             afterQueries arguments t (S k))).
Proof.
  intros ext A value arguments statusObject Hs.
  assert (Hr : isTxRejected statusObject = true) by now apply isTxRejected_spec.
  assert (Ha : isTxAccepted statusObject = false).
  { destruct (isTxAccepted statusObject) eqn:E; trivial.
    apply isTxAccepted_spec in E. destruct E as [[E | E] _]; congruence. }
  repeat split; trivial.
  - intros t Ho. rewrite (iterativelyCheckStatus_observed Ho), Ha, Hr. reflexivity.
  - intros k timers t Hk Ho.
    rewrite newPromise_skip by exact Hk.
    assert (E : iterativelyCheckStatus arguments (afterQueries arguments t k)
                = (inr (CallReject TransactionRejected), afterQueries arguments t (S k))).
    { rewrite (iterativelyCheckStatus_observed Ho), Ha, Hr.
      unfold afterQueries. rewrite <- app_assoc.
      change [txStatusCommand arguments] with (repeat (txStatusCommand arguments) 1).
      rewrite <- repeat_app, Nat.add_1_r. reflexivity. }
    destruct timers; cbn [newPromise]; rewrite E; reflexivity.
Qed.

(** The sample poller finds the transaction RECEIVED once and REJECTED
    next: the promise is rejected. *)
Lemma rejected_status_rejects_wait_witness :
  newPromise (ext := Sample.externals) (1 + 2)
    (Sample.pollArguments
       (Sample.scripted [Sample.ok (Sample.statusText Sample.received_null)]
          (Sample.ok (Sample.statusText Sample.rejected_0x1))))
    tt []
  = (Rejected (Error "Transaction rejected."),
     afterQueries (ext := Sample.externals)
       (Sample.pollArguments
          (Sample.scripted [Sample.ok (Sample.statusText Sample.received_null)]
             (Sample.ok (Sample.statusText Sample.rejected_0x1))))
       [] 2).
Proof.
  refine (proj2 (proj2 (proj2
            (@rejected_status_rejects_wait Sample.externals unit tt
               (Sample.pollArguments
                  (Sample.scripted [Sample.ok (Sample.statusText Sample.received_null)]
                     (Sample.ok (Sample.statusText Sample.rejected_0x1))))
               Sample.rejected_0x1 eq_refl))) 1 2 [] _ _).
  - intros i Hi. assert (i = 0) as -> by lia.
    exists Sample.received_null. split.
    + split; reflexivity.
    + right; left; reflexivity.
  - split; reflexivity.
Defined.

(** ** The contract handle *)

(** C6: on a handle whose address is unset, [invokeOrCall], and so [invoke]
    and [call], throw the contract-not-deployed error, and the trace of
    commands is the one they started with: nothing was submitted. *)
Theorem unset_address_fails_before_submission :
  forall (ext : Externals) (this : StarknetContract) (functionName : string)
         (args : option (Args Value)) (signature : option (list Numeric)) (t : Trace),
    address this = None ->
    (forall kind : Kind,
       invokeOrCall this kind functionName args signature t = (inl ContractNotDeployed, t))
    /\ (forall timers : nat,
          invoke timers this functionName args signature t = (inl ContractNotDeployed, t))
    /\ call this functionName args signature t = (inl ContractNotDeployed, t).
Proof.
  intros ext this functionName args signature t H.
  assert (E : forall kind,
             invokeOrCall this kind functionName args signature t
             = (inl ContractNotDeployed, t)).
  { intros kind. unfold invokeOrCall. rewrite H. reflexivity. }
  split; [exact E|]. split.
  - intros timers. unfold invoke. cbn [bind Monad_M]. rewrite E. reflexivity.
  - unfold call. cbn [bind Monad_M]. rewrite E. reflexivity.
Qed.

(** An invoke on the sample contract before it is deployed. *)
Lemma unset_address_fails_before_submission_witness :
  invoke (ext := Sample.externals) 0
    (Sample.contract (Sample.always (Sample.ok Sample.invokeOutput)) None)
    "increase_balance" (Some (ObjectArgs [("amount", "10")])) None []
  = (inl (HardhatPluginError "Starknet" "Contract not deployed"), []).
Proof.
  exact (proj1 (proj2
           (@unset_address_fails_before_submission Sample.externals
              (Sample.contract (Sample.always (Sample.ok Sample.invokeOutput)) None)
              "increase_balance" (Some (ObjectArgs [("amount", "10")])) None []
              eq_refl)) 0).
Defined.

(** C9 as stated fails: an invoke with an array of arguments on a handle
    whose address is unset reports that the contract is not deployed, not
    that the arguments are positional. *)
Lemma array_arguments_on_undeployed_contract :
  isArray (Some (ArrayArgs ["10"])) = true
  /\ invokeOrCall (ext := Sample.externals)
       (Sample.contract (Sample.always (Sample.ok Sample.invokeOutput)) None)
       Invoke "increase_balance" (Some (ArrayArgs ["10"])) None []
     = (inl (HardhatPluginError "Starknet" "Contract not deployed"), [])
  /\ fst (invokeOrCall (ext := Sample.externals)
            (Sample.contract (Sample.always (Sample.ok Sample.invokeOutput)) None)
            Invoke "increase_balance" (Some (ArrayArgs ["10"])) None [])
     <> inl (PositionalArgumentsRejected (ext := Sample.externals)).
Proof.
  repeat split. cbn. discriminate.
Qed.

(** C9, amended: an invoke or call whose arguments are an array always
    fails without submitting anything; on a handle whose address is set, for
    a function the ABI has, the failure is the positional-arguments error. *)
Theorem array_arguments_fail_before_submission :
  forall (ext : Externals) (this : StarknetContract) (functionName : string)
         (args : option (Args Value)) (signature : option (list Numeric)) (t : Trace),
    isArray args = true ->
    (forall kind : Kind,
       exists e, invokeOrCall this kind functionName args signature t = (inl e, t))
    /\ (Js.truthy (address this) = true ->
        abi_get functionName (abi this) <> None ->
        (forall kind : Kind,
           invokeOrCall this kind functionName args signature t
           = (inl PositionalArgumentsRejected, t))
        /\ (forall timers : nat,
              invoke timers this functionName args signature t
              = (inl PositionalArgumentsRejected, t))
        /\ call this functionName args signature t
           = (inl PositionalArgumentsRejected, t)).
Proof.
  intros ext this functionName args signature t Harr. split.
  - intros kind. unfold invokeOrCall.
    destruct (address this) as [a|]; [|eexists; reflexivity].
    destruct (Js.truthy_string a); cbn [negb]; [|eexists; reflexivity].
    destruct (abi_get functionName (abi this)); [|eexists; reflexivity].
    rewrite Harr. eexists. reflexivity.
  - intros Haddr Hfun.
    assert (E : forall kind,
               invokeOrCall this kind functionName args signature t
               = (inl PositionalArgumentsRejected, t)).
    { intros kind. unfold invokeOrCall.
      destruct (address this) as [a|]; [|discriminate].
      cbn in Haddr. rewrite Haddr. cbn [negb].
      destruct (abi_get functionName (abi this)); [|now elim Hfun].
      rewrite Harr. reflexivity. }
    split; [exact E|]. split.
    + intros timers. unfold invoke. cbn [bind Monad_M]. rewrite E. reflexivity.
    + unfold call. cbn [bind Monad_M]. rewrite E. reflexivity.
Qed.

(** A call of the sample contract with an array of arguments. *)
Lemma array_arguments_fail_before_submission_witness :
  call (ext := Sample.externals)
    (Sample.contract (Sample.always (Sample.ok "10")) (Some "0x1"))
    "get_balance" (Some (ArrayArgs ["10"])) None []
  = (inl (HardhatPluginError "Starknet"
            "Arguments should be passed in the form of an object."), []).
Proof.
  refine (proj2 (proj2 (proj2
            (@array_arguments_fail_before_submission Sample.externals
               (Sample.contract (Sample.always (Sample.ok "10")) (Some "0x1"))
               "get_balance" (Some (ArrayArgs ["10"])) None [] eq_refl)
            eq_refl _))).
  cbn. discriminate.
Defined.



(** ** The ABI index *)

Lemma abi_get_set_same (key : string) (value : AbiEntry) (abi : Abi) :
  abi_get key (abi_set key value abi) = Some value.
Proof.
  induction abi as [|[k v] rest IH]; cbn.
  - now rewrite String.eqb_refl.
  - destruct (String.eqb k key) eqn:E; cbn; rewrite E; trivial.
Qed.

Lemma abi_get_set_other (key key' : string) (value : AbiEntry) (abi : Abi) :
  key' <> key ->
  abi_get key' (abi_set key value abi) = abi_get key' abi.
Proof.
  intros Hne. induction abi as [|[k v] rest IH]; cbn.
  - destruct (String.eqb_spec key key'); congruence.
  - destruct (String.eqb_spec k key) as [-> | Hk]; cbn.
    + destruct (String.eqb_spec key key'); congruence.
    + destruct (String.eqb_spec k key'); trivial.
Qed.

Lemma abi_get_In (key : string) (value : AbiEntry) (abi : Abi) :
  abi_get key abi = Some value -> In key (map fst abi).
Proof.
  induction abi as [|[k v] rest IH]; cbn; [discriminate|].
  destruct (String.eqb_spec k key); auto.
Qed.

Lemma In_abi_get (key : string) (abi : Abi) :
  In key (map fst abi) -> exists value, abi_get key abi = Some value.
Proof.
  induction abi as [|[k v] rest IH]; cbn; [contradiction|].
  destruct (String.eqb_spec k key) as [-> | Hk].
  - intros _. now exists v.
  - intros [H | H]; [contradiction | auto].
Qed.

Section ReadAbi.

Context {ext : Externals}.


(** What the loop returns, against what it started from. *)
Lemma readAbi_loop_returns (abiArray : list AbiEntry) :
  forall abi0 abi : Abi,
    readAbi_loop abiArray abi0 = inr abi ->
    (forall abiEntry, In abiEntry abiArray -> Js.truthy (name abiEntry) = true)
    /\ (forall key, abi_get key abi0 <> None -> abi_get key abi <> None)
    /\ (forall abiEntry key,
          In abiEntry abiArray -> name abiEntry = Some key -> abi_get key abi <> None)
    /\ (forall key indexed,
          abi_get key abi = Some indexed ->
          abi_get key abi0 = Some indexed
          \/ (In indexed abiArray /\ name indexed = Some key)).
Proof.
  induction abiArray as [|abiEntry rest IH]; intros abi0 abi; cbn [readAbi_loop].
  - intros H. injection H as <-. repeat split; auto; contradiction.
  - destruct (name abiEntry) as [key0|] eqn:Hn; [|discriminate].
    destruct (Js.truthy_string key0) eqn:Ht; cbn [negb]; [|discriminate].
    intros H. destruct (IH _ _ H) as [H1 [H2 [H3 H4]]].
    split; [|split; [|split]].
    + intros x [<- | Hx]; [now rewrite Hn | auto].
    + intros key Hk. apply H2.
      destruct (string_dec key key0) as [-> | Hne].
      * rewrite abi_get_set_same. discriminate.
      * now rewrite abi_get_set_other.
    + intros x key [<- | Hx] Hname.
      * apply H2. assert (key = key0) as -> by congruence.
        rewrite abi_get_set_same. discriminate.
      * now apply (H3 x).
    + intros key indexed Hk. destruct (H4 _ _ Hk) as [H0 | [Hin Hname]].
      * destruct (string_dec key key0) as [-> | Hne].
        -- rewrite abi_get_set_same in H0. injection H0 as <-.
           right. split; [now left | trivial].
        -- rewrite abi_get_set_other in H0 by trivial. now left.
      * right. split; [now right | trivial].
Qed.

End ReadAbi.



(** ** The contract factory *)

Lemma insertIndex_In (x k : N * string) (l : list (N * string)) :
  In x (insertIndex k l) <-> x = k \/ In x l.
Proof.
  induction l as [|h rest IH]; cbn.
  - intuition congruence.
  - destruct (fst k <=? fst h)%N; cbn; rewrite ?IH; intuition congruence.
Qed.

Lemma sortIndices_In (x : N * string) (l : list (N * string)) :
  In x (sortIndices l) <-> In x l.
Proof.
  unfold sortIndices. induction l as [|h rest IH]; cbn; [tauto|].
  rewrite insertIndex_In, IH. intuition congruence.
Qed.

Lemma indexKeys_In (n : N) (key : string) (keys : list string) :
  In (n, key) (indexKeys keys) <-> In key keys /\ arrayIndex key = Some n.
Proof.
  induction keys as [|k rest IH]; cbn; [tauto|].
  destruct (arrayIndex k) as [m|] eqn:E; cbn; rewrite IH; split.
  - intros [H | [H1 H2]]; [injection H as <- <-; auto | auto].
  - intros [[<- | H1] H2]; [left; congruence | auto].
  - intros [H1 H2]; auto.
  - intros [[<- | H1] H2]; [congruence | auto].
Qed.

(** A [for ... in] loop visits the keys of the index, all of them. *)
Lemma forIn_In (key : string) (abi : Abi) :
  In key (forIn abi) <-> In key (map fst abi).
Proof.
  unfold forIn. rewrite in_app_iff, in_map_iff, filter_In. split.
  - intros [[[n k] [Hk Hin]] | [Hin _]]; trivial.
    cbn in Hk. subst k. apply sortIndices_In, indexKeys_In in Hin. tauto.
  - intros Hin. unfold isArrayIndex. destruct (arrayIndex key) as [n|] eqn:E.
    + left. exists (n, key). split; trivial.
      apply sortIndices_In, indexKeys_In. auto.
    + right. auto.
Qed.

(** The factory has a constructor entry exactly when the index holds an
    entry whose type is constructor. *)
Lemma findConstructor_spec (abi : Abi) :
  findConstructor abi <> None <->
  exists key abiEntry, abi_get key abi = Some abiEntry /\ type abiEntry = "constructor".
Proof.
  unfold findConstructor.
  assert (G : forall (keys : list string) (acc : option AbiEntry),
             fold_left
               (fun this_constructorAbi abiEntryName =>
                  match abi_get abiEntryName abi with
                  | Some abiEntry =>
                      if String.eqb (type abiEntry) "constructor" then Some abiEntry
                      else this_constructorAbi
                  | None => this_constructorAbi
                  end) keys acc <> None <->
             acc <> None
             \/ exists key abiEntry,
                  In key keys /\ abi_get key abi = Some abiEntry
                  /\ type abiEntry = "constructor").
  { induction keys as [|k rest IH]; intros acc; cbn [fold_left].
    - split; [auto|]. intros [H | [key [abiEntry [[] _]]]]; trivial.
    - rewrite IH. split.
      + intros [H | [key [abiEntry [Hin H]]]].
        * destruct (abi_get k abi) as [abiEntry|] eqn:Hk; [|now left].
          destruct (String.eqb_spec (type abiEntry) "constructor"); [|now left].
          right. exists k, abiEntry. cbn. auto.
        * right. exists key, abiEntry. cbn. tauto.
      + intros [H | [key [abiEntry [[<- | Hin] [Hk Ht]]]]].
        * left. destruct (abi_get k abi) as [abiEntry|]; trivial.
          destruct (String.eqb (type abiEntry) "constructor"); [discriminate | trivial].
        * left. rewrite Hk, Ht. cbn. discriminate.
        * right. exists key, abiEntry. auto. }
  rewrite G. split.
  - intros [H | [key [abiEntry [_ H]]]]; [now elim H|]. now exists key, abiEntry.
  - intros [key [abiEntry [Hk Ht]]]. right. exists key, abiEntry.
    split; [|auto]. apply forIn_In. eapply abi_get_In. eassumption.
Qed.

(** C2, evaluated on the code: the sample factory is built from an ABI
    whose constructor takes no argument, so its formal parameter list is
    empty and no argument is required; yet a deploy without arguments is
    refused with the error that constructor arguments are required, before
    anything is submitted. *)
Lemma constructor_without_parameters_requires_arguments :
  StarknetContractFactory_new (ext := Sample.externals)
    {| factoryConfig_base :=
         {| config_starknetWrapper := Sample.always (Sample.ok Sample.deployOutput);
            config_abiPath := "plain_abi.json";
            config_gatewayUrl := "http://localhost:5000";
            config_feederGatewayUrl := "http://localhost:5000" |};
       config_metadataPath := "plain.json" |}
  = inr (Sample.plainFactory (Sample.always (Sample.ok Sample.deployOutput)))
  /\ formalParameters (Sample.plainFactory (Sample.always (Sample.ok Sample.deployOutput))) = []
  /\ handleConstructorArguments (ext := Sample.externals)
       (Sample.plainFactory (Sample.always (Sample.ok Sample.deployOutput)))
       None ["deploy"]
     = inl (MissingConstructorArguments (ext := Sample.externals))
  /\ deploy (ext := Sample.externals) 0
       (Sample.plainFactory (Sample.always (Sample.ok Sample.deployOutput)))
       None None []
     = (inl (MissingConstructorArguments (ext := Sample.externals)), []).
Proof.
  repeat split.
Qed.

(** What [handleConstructorArguments] tests, as it is written: the presence
    of a constructor entry, not the parameters of that entry.  It throws the
    missing-arguments error exactly when the factory has a constructor entry
    and the arguments are absent or empty, and the unexpected-arguments error
    exactly when the arguments are not empty and the factory has no
    constructor entry; the factory has a constructor entry exactly when its
    ABI index holds an entry of type constructor. *)
Theorem constructor_arguments_checked_against_constructor_entry :
  forall (ext : Externals) (this : StarknetContractFactory)
         (constructorArguments : option (Args Value)) (starknetArgs : list string),
    (handleConstructorArguments this constructorArguments starknetArgs
     = inl MissingConstructorArguments
     <-> constructorAbi this <> None
         /\ (constructorArguments = None
             \/ exists a, constructorArguments = Some a /\ keysLength a = 0))
    /\ (handleConstructorArguments this constructorArguments starknetArgs
        = inl UnexpectedConstructorArguments
        <-> (exists a, constructorArguments = Some a /\ keysLength a <> 0)
            /\ constructorAbi this = None)
    /\ (forall abi : Abi,
          findConstructor abi <> None <->
          exists key abiEntry,
            abi_get key abi = Some abiEntry /\ type abiEntry = "constructor").
Proof.
  intros ext this constructorArguments starknetArgs.
  split; [|split; [|apply findConstructor_spec]].
  - unfold handleConstructorArguments, MissingConstructorArguments, provided.
    destruct (constructorAbi this) as [entry|];
      destruct constructorArguments as [a|]; cbn.
    + destruct (Nat.eqb_spec (keysLength a) 0) as [E | E]; cbn.
      * split; [|reflexivity]. intros _. split; [discriminate|]. right. now exists a.
      * destruct (adaptInput _ _ _ _); cbn; split; try discriminate;
          intros [_ [H | [a' [H H']]]]; try discriminate; injection H as <-; contradiction.
    + split; [|reflexivity]. intros _. split; [discriminate | now left].
    + destruct (Nat.eqb (keysLength a) 0); cbn; split; try discriminate;
        intros [H _]; now elim H.
    + split; [discriminate|]. intros [H _]. now elim H.
  - unfold handleConstructorArguments, UnexpectedConstructorArguments, provided.
    destruct (constructorAbi this) as [entry|];
      destruct constructorArguments as [a|]; cbn.
    + destruct (Nat.eqb (keysLength a) 0); cbn.
      * split; [discriminate|]. intros [_ H]. discriminate.
      * destruct (adaptInput _ _ _ _); cbn; split; try discriminate;
          intros [_ H]; discriminate.
    + split; [discriminate|]. intros [_ H]. discriminate.
    + destruct (Nat.eqb_spec (keysLength a) 0) as [E | E]; cbn.
      * split; [discriminate|]. intros [[a' [H H']] _]. injection H as <-. contradiction.
      * split; [|reflexivity]. intros _. split; trivial. now exists a.
    + split; [discriminate|]. intros [[a' [H _]] _]. discriminate.
Qed.

(** ** The text of a submission result *)

Lemma stripPrefix_Some (p l capture : string) :
  Js.stripPrefix p l = Some capture <-> l = (p ++ capture)%string.
Proof.
  revert l. induction p as [|a p IH]; intros l; cbn.
  - split; congruence.
  - destruct l as [|b l].
    + split; discriminate.
    + destruct (Ascii.eqb_spec a b) as [<- | Hne].
      * rewrite IH. split; congruence.
      * split; [discriminate | congruence].
Qed.

Lemma lineTerminator_shorter (s rest : string) :
  Js.lineTerminator s = Some rest -> String.length rest < String.length s.
Proof.
  destruct s as [|c s]; cbn [Js.lineTerminator]; [discriminate|].
  destruct (Js.isLineBreak c).
  - intros H. injection H as <-. cbn. lia.
  - destruct s as [|c2 [|c3 s3]]; try discriminate.
    destruct (Js.isSeparator c c2 c3); [|discriminate].
    intros H. injection H as <-. cbn. lia.
Qed.

Lemma dotStar_step (c : ascii) (s : string) :
  Js.dotStar (String c s)
  = match Js.lineTerminator (String c s) with
    | Some _ => EmptyString
    | None => String c (Js.dotStar s)
    end.
Proof.
  reflexivity.
Qed.

Lemma lines_step (c : ascii) (s : string) :
  Js.lines (String c s)
  = match Js.lineTerminator (String c s) with
    | Some rest => EmptyString :: Js.lines rest
    | None => Js.extendFirst c (Js.lines s)
    end.
Proof.
  cbn [Js.lines Js.lineTerminator].
  destruct (Js.isLineBreak c); trivial.
  destruct s as [|c2 [|c3 s3]]; trivial.
  destruct (Js.isSeparator c c2 c3); trivial.
Qed.

Lemma search_false_step (re : Js.RegExp) (c : ascii) (s : string) :
  Js.search re false (String c s)
  = match Js.lineTerminator (String c s) with
    | Some rest => Js.search re true rest
    | None => Js.search re false s
    end.
Proof.
  cbn [Js.search Js.lineTerminator].
  destruct (Js.isLineBreak c); trivial.
  destruct s as [|c2 [|c3 s3]]; trivial.
  destruct (Js.isSeparator c c2 c3); trivial.
Qed.

Lemma search_true_step (re : Js.RegExp) (s : string) :
  Js.search re true s
  = match Js.stripPrefix (Js.literal re) s with
    | Some rest => Some (Js.dotStar rest)
    | None => Js.search re false s
    end.
Proof.
  destruct s as [|c s]; cbn [Js.search].
  - destruct (Js.stripPrefix (Js.literal re) EmptyString); reflexivity.
  - destruct (Js.stripPrefix (Js.literal re) (String c s)); trivial.
Qed.

(** No line terminator starts with an ASCII character other than line feed
    and carriage return. *)
Lemma plain_no_terminator (a : ascii) (s : string) :
  (N_of_ascii a <? 128)%N = true ->
  Js.isLineBreak a = false ->
  Js.lineTerminator (String a s) = None.
Proof.
  intros Ha Hb. cbn [Js.lineTerminator]. rewrite Hb.
  destruct s as [|c2 [|c3 s3]]; trivial.
  unfold Js.isSeparator.
  destruct (Ascii.eqb_spec a "226"%char) as [-> | Hne]; [|reflexivity].
  vm_compute in Ha. discriminate Ha.
Qed.

Lemma plainText_cons (a : ascii) (p : string) :
  Js.plainText (String a p) = true ->
  (forall s, Js.lineTerminator (String a s) = None) /\ Js.plainText p = true.
Proof.
  cbn [Js.plainText]. intros H.
  apply andb_true_iff in H. destruct H as [H Hp].
  apply andb_true_iff in H. destruct H as [Ha Hb].
  apply negb_true_iff in Hb. split; trivial.
  intros s. now apply plain_no_terminator.
Qed.

Lemma stripPrefix_dotStar (p s : string) :
  Js.plainText p = true ->
  Js.stripPrefix p (Js.dotStar s) = option_map Js.dotStar (Js.stripPrefix p s).
Proof.
  revert s. induction p as [|a p IH]; intros s Hp.
  - reflexivity.
  - apply plainText_cons in Hp. destruct Hp as [Ha Hp].
    destruct s as [|b s]; [reflexivity|].
    rewrite dotStar_step. cbn [Js.stripPrefix].
    destruct (Js.lineTerminator (String b s)) eqn:E.
    + destruct (Ascii.eqb_spec a b) as [<- | Hne]; [|reflexivity].
      rewrite Ha in E. discriminate E.
    + destruct (Ascii.eqb a b); [now apply IH | reflexivity].
Qed.

Lemma lines_dotStar (s : string) :
  exists rest, Js.lines s = Js.dotStar s :: rest.
Proof.
  induction s as [|c s [rest IH]].
  - now exists [].
  - rewrite lines_step, dotStar_step.
    destruct (Js.lineTerminator (String c s)) as [after|].
    + now exists (Js.lines after).
    + rewrite IH. now exists rest.
Qed.

(** The search of the regular expression finds the capture of the first
    line of the text that starts with the literal. *)
Lemma search_lines (re : Js.RegExp) (s : string) :
  Js.plainText (Js.literal re) = true ->
  Js.search re true s = Js.firstCapture (Js.literal re) (Js.lines s)
  /\ Js.search re false s = Js.firstCapture (Js.literal re) (tl (Js.lines s)).
Proof.
  intros Hp.
  assert (G : forall n s, String.length s <= n ->
              Js.search re true s = Js.firstCapture (Js.literal re) (Js.lines s)
              /\ Js.search re false s
                 = Js.firstCapture (Js.literal re) (tl (Js.lines s))).
  { clear s. induction n as [|n IH]; intros s Hn.
    - destruct s as [|c s]; [|cbn in Hn; lia].
      cbn. destruct (Js.stripPrefix (Js.literal re) EmptyString) eqn:E; split; trivial.
      apply stripPrefix_Some in E. destruct (Js.literal re); [|discriminate].
      cbn in E. now subst.
    - destruct s as [|c s].
      + cbn. destruct (Js.stripPrefix (Js.literal re) EmptyString) eqn:E; split; trivial.
        apply stripPrefix_Some in E. destruct (Js.literal re); [|discriminate].
        cbn in E. now subst.
      + assert (F : Js.search re false (String c s)
                    = Js.firstCapture (Js.literal re) (tl (Js.lines (String c s)))).
        { rewrite search_false_step, lines_step.
          destruct (Js.lineTerminator (String c s)) as [after|] eqn:E.
          - cbn [tl]. apply IH. apply lineTerminator_shorter in E. cbn in E, Hn. lia.
          - destruct (lines_dotStar s) as [rest Hl].
            destruct (IH s) as [_ Hf]; [cbn in Hn; lia|].
            rewrite Hf, Hl. reflexivity. }
        split; trivial.
        destruct (lines_dotStar (String c s)) as [rest Hl].
        rewrite Hl in F |- *. cbn [tl] in F. cbn [Js.firstCapture].
        rewrite stripPrefix_dotStar by trivial.
        rewrite search_true_step.
        destruct (Js.stripPrefix (Js.literal re) (String c s)); cbn [option_map]; trivial. }
  now apply (G (String.length s)).
Qed.

Lemma firstCapture_None (p : string) (ls : list string) :
  (forall capture, ~ In (p ++ capture)%string ls) -> Js.firstCapture p ls = None.
Proof.
  induction ls as [|l rest IH]; intros H; cbn; trivial.
  destruct (Js.stripPrefix p l) as [capture|] eqn:E.
  - apply stripPrefix_Some in E. subst l. elim (H capture). now left.
  - apply IH. intros capture Hin. apply (H capture). now right.
Qed.

Section Extraction.

Context {ext : Externals}.

Lemma extractFromResponse_spec (response : string) (regex : Js.RegExp) (capture : string) :
  Js.plainText (Js.literal regex) = true ->
  extractFromResponse response regex = inr capture <->
  Js.firstCapture (Js.literal regex) (Js.lines response) = Some capture
  /\ capture <> EmptyString.
Proof.
  intros Hp. unfold extractFromResponse, Js.match_.
  rewrite (proj1 (search_lines regex response Hp)).
  destruct (Js.firstCapture _ _) as [matched1|]; cbn.
  - destruct matched1 as [|c rest]; cbn; split.
    + discriminate.
    + intros [H Hne]. injection H as <-. now elim Hne.
    + intros H. injection H as <-. split; [trivial | discriminate].
    + intros [H _]. congruence.
  - split; [discriminate|]. intros [H _]. discriminate.
Qed.

Lemma extractFromResponse_throws (response : string) (regex : Js.RegExp) (e : Thrown) :
  extractFromResponse response regex = inl e -> e = UnparsableSubmissionResult.
Proof.
  unfold extractFromResponse.
  destruct (Js.match_ response regex) as [matched1|]; cbn.
  - destruct (Js.truthy_string matched1); cbn; [discriminate|].
    intros H. injection H as <-. reflexivity.
  - intros H. injection H as <-. reflexivity.
Qed.

Lemma extractDeployment_returns (text address txHash : string) :
  extractDeployment text = inr (address, txHash) <->
  extractAddress text = inr address /\ extractTxHash text = inr txHash.
Proof.
  unfold extractDeployment. cbn [bind ret Monad_Result].
  destruct (extractAddress text) as [e1 | address'].
  - split; [discriminate | intros [H _]; discriminate].
  - destruct (extractTxHash text) as [e2 | txHash'].
    + split; [discriminate | intros [_ H]; discriminate].
    + split; [intros H | intros [H1 H2]]; [injection H as <- <-; auto | congruence].
Qed.

End Extraction.

(** C7 as stated fails: this output has an address line and a hash line
    whose captures are not empty, but its first address line has an empty
    capture, which is the one the match returns, and [deploy] cannot parse
    it. *)
Lemma later_address_line_is_not_read :
  hasLine "Contract address: " Sample.outputWithEmptyAddressLine
  /\ hasLine "Transaction hash: " Sample.outputWithEmptyAddressLine
  /\ extractDeployment (ext := Sample.externals) Sample.outputWithEmptyAddressLine
     = inl (UnparsableSubmissionResult (ext := Sample.externals))
  /\ fst (deploy (ext := Sample.externals) 0
            (Sample.factory (Sample.always (Sample.ok Sample.outputWithEmptyAddressLine)))
            None None [])
     = inl (UnparsableSubmissionResult (ext := Sample.externals)).
Proof.
  split; [|split; [|split; reflexivity]].
  - exists "0x1". split; [cbn; auto | discriminate].
  - exists "0x2". split; [cbn; auto | discriminate].
Qed.

(** C7, amended: the parsing of the output of a deployment returns an
    address and a transaction hash exactly when the first line that starts
    with the address literal has that address as its rest, the first line that
    starts with the hash literal has that hash as its rest, and neither is
    empty; when a text has no line starting with one of the two literals, the
    parsing throws, and all it ever throws is the parse error; and [deploy],
    once the submission has succeeded, throws what the parsing throws,
    having issued that one command. *)
Theorem deploy_reads_first_address_and_hash_lines :
  forall (ext : Externals) (text : string),
    (forall address txHash : string,
       extractDeployment text = inr (address, txHash) <->
       Js.firstCapture "Contract address: " (Js.lines text) = Some address
       /\ address <> EmptyString
       /\ Js.firstCapture "Transaction hash: " (Js.lines text) = Some txHash
       /\ txHash <> EmptyString)
    /\ ((forall capture, ~ In ("Contract address: " ++ capture)%string (Js.lines text))
        \/ (forall capture, ~ In ("Transaction hash: " ++ capture)%string (Js.lines text)) ->
        extractDeployment text = inl UnparsableSubmissionResult)
    /\ (forall e, extractDeployment text = inl e -> e = UnparsableSubmissionResult)
    /\ (forall (timers : nat) (this : StarknetContractFactory)
               (constructorArguments : option (Args Value))
               (signature : option (list Numeric)) (starknetArgs : list string)
               (t : Trace) (e : Thrown),
          handleConstructorArguments this constructorArguments
            ["deploy"; "--contract"; metadataPath this;
             "--gateway_url"; adaptUrl (factory_gatewayUrl this)]
          = inr starknetArgs ->
          let submitted :=
            {| command := "starknet";
               args := handleSignature signature starknetArgs;
               paths := Some [metadataPath this] |} in
          statusCode (factory_starknetWrapper this t submitted) = 0%Z ->
          stdout (factory_starknetWrapper this t submitted) = text ->
          extractDeployment text = inl e ->
          deploy timers this constructorArguments signature t = (inl e, t ++ [submitted])).
Proof.
  intros ext text.
  assert (Ha : forall address,
             extractAddress text = inr address <->
             Js.firstCapture "Contract address: " (Js.lines text) = Some address
             /\ address <> EmptyString).
  { intros address. now apply extractFromResponse_spec. }
  assert (Hh : forall txHash,
             extractTxHash text = inr txHash <->
             Js.firstCapture "Transaction hash: " (Js.lines text) = Some txHash
             /\ txHash <> EmptyString).
  { intros txHash. now apply extractFromResponse_spec. }
  assert (Hthrows : forall e, extractDeployment text = inl e -> e = UnparsableSubmissionResult).
  { intros e. unfold extractDeployment. cbn [bind ret Monad_Result].
    destruct (extractAddress text) as [e1 | address] eqn:E1.
    - intros H. injection H as <-. eapply extractFromResponse_throws. exact E1.
    - destruct (extractTxHash text) as [e2 | txHash] eqn:E2; [|discriminate].
      intros H. injection H as <-. eapply extractFromResponse_throws. exact E2. }
  split; [|split; [|split; [exact Hthrows|]]].
  - intros address txHash. rewrite extractDeployment_returns, Ha, Hh. tauto.
  - intros H.
    destruct (extractDeployment text) as [e | [address txHash]] eqn:E.
    + now rewrite (Hthrows e).
    + exfalso. apply extractDeployment_returns in E. destruct E as [E1 E2].
      apply Ha in E1. apply Hh in E2. destruct E1 as [E1 _], E2 as [E2 _].
      destruct H as [H | H]; apply firstCapture_None in H; congruence.
  - intros timers this constructorArguments signature starknetArgs t e Hc submitted Hs Ho He.
    unfold deploy. cbn [bind Monad_M]. unfold lift at 1. rewrite Hc.
    unfold runCommand. fold submitted.
    apply truthy_number_false in Hs. rewrite Hs.
    cbn [bind Monad_M]. unfold lift at 1. rewrite Ho, He. reflexivity.
Qed.

(** A text with an address line and no hash line is not parsed. *)
Lemma deploy_reads_first_address_and_hash_lines_witness :
  extractDeployment (ext := Sample.externals) "Contract address: 0x1"
  = inl (UnparsableSubmissionResult (ext := Sample.externals)).
Proof.
  refine (proj1 (proj2
            (@deploy_reads_first_address_and_hash_lines Sample.externals
               "Contract address: 0x1")) (or_intror _)).
  intros capture [H | []]. discriminate.
Defined.

(** * Further properties *)

(** ** The status poller, over many polls *)

Section PollerHistory.

Context {ext : Externals}.

Lemma afterQueries_0 (arguments : PollArguments) (t : Trace) :
  afterQueries arguments t 0 = t.
Proof.
  unfold afterQueries. cbn. apply app_nil_r.
Qed.

Lemma afterQueries_1 (arguments : PollArguments) (t : Trace) :
  afterQueries arguments t 1 = t ++ [txStatusCommand arguments].
Proof.
  reflexivity.
Qed.

(** How a promise came to its state: [k] polls found a status that is
    neither accepted nor rejected, and the next activation decided. *)
Lemma newPromise_history (A : Type) (value : A) (arguments : PollArguments) :
  forall (timers : nat) (t : Trace) (wait : Wait A) (t' : Trace),
    newPromise timers arguments value t = (wait, t') ->
    exists k,
      k <= timers
      /\ t' = afterQueries arguments t (S k)
      /\ (forall i, i < k ->
            exists statusObject,
              observes arguments (afterQueries arguments t i) statusObject
              /\ isTxAccepted statusObject = false
              /\ isTxRejected statusObject = false)
      /\ match fst (iterativelyCheckStatus arguments (afterQueries arguments t k)) with
         | inl e => wait = Abandoned e
         | inr CallResolve => wait = Fulfilled value
         | inr (CallReject reason) => wait = Rejected reason
         | inr (SetTimeout timeout arguments') =>
             wait = Polling timeout arguments' /\ k = timers
         end.
Proof.
  induction timers as [|timers IH]; intros t wait t' H; cbn [newPromise] in H.
  - exists 0. rewrite afterQueries_0, afterQueries_1.
    split; [lia|]. split; [|split; [intros i Hi; lia|]].
    + rewrite iterativelyCheckStatus_run in H. cbv zeta in H.
      destruct (Js.truthy_number _); [congruence|].
      destruct (JSON_parse_status _) as [[|so]|]; [congruence| |congruence].
      destruct (isTxAccepted so); [congruence|].
      destruct (isTxRejected so); congruence.
    + destruct (iterativelyCheckStatus arguments t) as [[e | [ | reason | d a]] t''];
        cbn [fst]; try split; congruence.
  - destruct (iterativelyCheckStatus arguments t) as [[e | [ | reason | d a]] t''] eqn:E.
    1-3: exists 0; rewrite afterQueries_0, afterQueries_1, E; cbn [fst];
         (split; [lia|]); (split; [|split; [intros i Hi; lia | congruence]]);
         rewrite iterativelyCheckStatus_run in E; injection E as _ <-; congruence.
    assert (E' : fst (iterativelyCheckStatus arguments t) = inr (SetTimeout d a))
      by now rewrite E.
    destruct (iterativelyCheckStatus_returns _ _ E') as [so [Ho Ha]].
    assert (Hs : isTxAccepted so = false /\ isTxRejected so = false /\ a = arguments).
    { destruct (isTxAccepted so); [discriminate|].
      destruct (isTxRejected so); [discriminate|]. injection Ha as _ ->. auto. }
    destruct Hs as [Hacc [Hrej ->]].
    assert (Et : t'' = t ++ [txStatusCommand arguments]).
    { rewrite iterativelyCheckStatus_run in E. now injection E as _ <-. }
    subst t''. destruct (IH _ _ _ H) as [k [Hk [Ht' [Hbefore Hlast]]]].
    exists (S k). rewrite afterQueries_S in Ht', Hlast.
    split; [lia|]. split; [exact Ht'|]. split.
    + intros [|i] Hi.
      * exists so. rewrite afterQueries_0. auto.
      * rewrite <- afterQueries_S. apply Hbefore. lia.
    + destruct (fst (iterativelyCheckStatus arguments (afterQueries arguments t (S k))))
        as [e | [ | reason | d' a']]; trivial.
      destruct Hlast as [Hw ->]. auto.
Qed.

End PollerHistory.

Lemma pollsAgain_spec (statusObject : StatusObject) :
  isTxAccepted statusObject = false /\ isTxRejected statusObject = false
  <-> pollsAgain statusObject.
Proof.
  unfold pollsAgain. split.
  - intros [Ha Hr].
    assert (Hna : ~ ((tx_status statusObject = PENDING
                      \/ tx_status statusObject = ACCEPTED_ONCHAIN)
                     /\ settled statusObject)).
    { intros H. apply isTxAccepted_spec in H. congruence. }
    assert (Hnr : tx_status statusObject <> REJECTED).
    { intros H. apply isTxRejected_spec in H. congruence. }
    destruct (tx_status statusObject); auto.
    + right; right. split; [now left|]. intros Hs. apply Hna. auto.
    + now elim Hnr.
    + right; right. split; [now right|]. intros Hs. apply Hna. auto.
  - intros H. split.
    + destruct (isTxAccepted statusObject) eqn:E; trivial.
      apply isTxAccepted_spec in E. destruct E as [E1 E2].
      destruct H as [H | [H | [_ H]]]; [| |now elim H];
        rewrite H in E1; destruct E1; discriminate.
    + destruct (isTxRejected statusObject) eqn:E; trivial.
      apply isTxRejected_spec in E.
      destruct H as [H | [H | [[H | H] _]]]; congruence.
Qed.

(** X1: a status is accepted, rejected, or polled again, and never two of
    these; it is polled again exactly when it is NOT_RECEIVED, RECEIVED, or
    PENDING or ACCEPTED_ONCHAIN without a settled block hash.  So a status
    ACCEPTED_ONCHAIN whose block hash is missing, empty or pending keeps the
    poller going. *)
Theorem status_is_accepted_rejected_or_polled_again :
  forall statusObject : StatusObject,
    (isTxAccepted statusObject = true -> isTxRejected statusObject = false)
    /\ (isTxAccepted statusObject = false /\ isTxRejected statusObject = false
        <-> pollsAgain statusObject)
    /\ (forall (ext : Externals) (arguments : PollArguments) (t : Trace),
          observes arguments t statusObject ->
          (fst (iterativelyCheckStatus arguments t)
           = inr (SetTimeout CHECK_STATUS_TIMEOUT arguments)
           <-> pollsAgain statusObject)).
Proof.
  intros statusObject.
  split; [|split; [apply pollsAgain_spec|]].
  - intros Ha. destruct (isTxRejected statusObject) eqn:E; trivial.
    apply isTxRejected_spec in E. apply isTxAccepted_spec in Ha.
    destruct Ha as [[Ha | Ha] _]; congruence.
  - intros ext arguments t Ho. rewrite (iterativelyCheckStatus_observed Ho). cbn [fst].
    rewrite <- pollsAgain_spec.
    destruct (isTxAccepted statusObject); [split; [discriminate | intros [H _]; discriminate]|].
    destruct (isTxRejected statusObject); [split; [discriminate | intros [_ H]; discriminate]|].
    split; auto.
Qed.

(** The sample poller observes RECEIVED without block hash and sets its
    timer. *)
Lemma status_is_accepted_rejected_or_polled_again_witness :
  fst (iterativelyCheckStatus (ext := Sample.externals)
         (Sample.pollArguments (Sample.always (Sample.ok (Sample.statusText Sample.received_null))))
         [])
  = inr (SetTimeout 5000
           (Sample.pollArguments
              (Sample.always (Sample.ok (Sample.statusText Sample.received_null))))).
Proof.
  apply (proj2 (proj2 (status_is_accepted_rejected_or_polled_again Sample.received_null))
           Sample.externals
           (Sample.pollArguments
              (Sample.always (Sample.ok (Sample.statusText Sample.received_null))))
           []).
  - split; reflexivity.
  - right; left; reflexivity.
Defined.

(** X2: whatever the answers, a promise that has waited for [timers] timers
    has issued between one and [timers + 1] commands, all of them the same
    status query for its transaction hash, and nothing else. *)
Theorem poller_issues_only_its_status_query :
  forall (ext : Externals) (A : Type) (value : A) (timers : nat)
         (arguments : PollArguments) (t : Trace),
  exists k,
    1 <= k <= timers + 1
    /\ snd (newPromise timers arguments value t)
       = t ++ repeat (txStatusCommand arguments) k.
Proof.
  intros ext A value timers arguments t.
  destruct (newPromise timers arguments value t) as [wait t'] eqn:E.
  destruct (newPromise_history _ _ _ _ E) as [k [Hk [Ht' _]]].
  exists (S k). split; [lia | exact Ht'].
Qed.

(** X3: a promise that is fulfilled, rejected or abandoned stays as it is:
    waiting for more timers changes neither its state nor the commands
    issued. *)
Theorem settled_promise_stays_settled :
  forall (ext : Externals) (A : Type) (value : A) (timers more : nat)
         (arguments : PollArguments) (t : Trace) (wait : Wait A) (t' : Trace),
    newPromise timers arguments value t = (wait, t') ->
    (forall timeout arguments', wait <> Polling timeout arguments') ->
    newPromise (timers + more) arguments value t = (wait, t').
Proof.
  intros ext A value timers more.
  induction timers as [|timers IH]; intros arguments t wait t' H Hn.
  - cbn [newPromise] in H. cbn [Nat.add].
    destruct more; cbn [newPromise]; trivial.
    destruct (iterativelyCheckStatus arguments t) as [[e | [ | reason | d a]] t'']; trivial.
    injection H as <- <-. now elim (Hn d a).
  - cbn [Nat.add newPromise] in *.
    destruct (iterativelyCheckStatus arguments t) as [[e | [ | reason | d a]] t'']; trivial.
    now apply IH.
Qed.

(** The sample promise is rejected at the second poll and is the same after
    five more timers. *)
Lemma settled_promise_stays_settled_witness :
  newPromise (ext := Sample.externals) (1 + 5)
    (Sample.pollArguments
       (Sample.scripted [Sample.ok (Sample.statusText Sample.received_null)]
          (Sample.ok (Sample.statusText Sample.rejected_0x1))))
    tt []
  = (Rejected (Error "Transaction rejected."),
     afterQueries (ext := Sample.externals)
       (Sample.pollArguments
          (Sample.scripted [Sample.ok (Sample.statusText Sample.received_null)]
             (Sample.ok (Sample.statusText Sample.rejected_0x1))))
       [] 2).
Proof.
  apply (@settled_promise_stays_settled Sample.externals unit tt 1 5).
  - reflexivity.
  - discriminate.
Defined.

(** X4: a promise that is still polling after [timers] timers goes on, when
    the next timer fires, as a fresh poller would from the commands issued so
    far; the timer it holds carries the delay [CHECK_STATUS_TIMEOUT] and the
    arguments it was started with. *)
Theorem polling_promise_continues :
  forall (ext : Externals) (A : Type) (value : A) (timers more : nat)
         (arguments : PollArguments) (t : Trace)
         (timeout : Z) (arguments' : PollArguments) (t' : Trace),
    newPromise timers arguments value t = (Polling timeout arguments', t') ->
    timeout = CHECK_STATUS_TIMEOUT
    /\ arguments' = arguments
    /\ newPromise (S timers + more) arguments value t
       = newPromise more arguments value t'.
Proof.
  intros ext A value timers more arguments t timeout arguments' t' H.
  assert (Hargs : timeout = CHECK_STATUS_TIMEOUT /\ arguments' = arguments).
  { destruct (newPromise_history _ _ _ _ H) as [k [_ [_ [_ Hlast]]]].
    destruct (fst (iterativelyCheckStatus arguments (afterQueries arguments t k)))
      as [e | a] eqn:E; [discriminate|].
    destruct (iterativelyCheckStatus_returns _ _ E) as [so [_ Ha]].
    destruct a as [ | reason | d a]; try discriminate.
    destruct Hlast as [Hw _]. injection Hw as -> ->.
    destruct (isTxAccepted so); [discriminate|].
    destruct (isTxRejected so); [discriminate|]. injection Ha as -> ->. auto. }
  destruct Hargs as [-> ->]. repeat split.
  revert arguments t H.
  induction timers as [|timers IH]; intros arguments t H.
  - cbn [newPromise] in H. cbn [Nat.add newPromise].
    destruct (iterativelyCheckStatus arguments t) as [[e | [ | reason | d a]] t''];
      try discriminate.
    injection H as _ <- <-. reflexivity.
  - cbn [newPromise] in H. change (S (S timers) + more) with (S (S timers + more)).
    cbn [newPromise].
    destruct (iterativelyCheckStatus arguments t) as [[e | [ | reason | d a]] t''] eqn:E;
      try discriminate.
    assert (E' : fst (iterativelyCheckStatus arguments t) = inr (SetTimeout d a))
      by now rewrite E.
    destruct (iterativelyCheckStatus_returns _ _ E') as [so [_ Ha]].
    destruct (isTxAccepted so); [discriminate|].
    destruct (isTxRejected so); [discriminate|]. injection Ha as _ ->.
    now apply IH.
Qed.

(** The sample promise, still polling after one timer, is rejected by the
    poll that follows. *)
Lemma polling_promise_continues_witness :
  newPromise (ext := Sample.externals) (S 1 + 0)
    (Sample.pollArguments
       (Sample.scripted [Sample.ok (Sample.statusText Sample.received_null);
                         Sample.ok (Sample.statusText Sample.pending_pending)]
          (Sample.ok (Sample.statusText Sample.rejected_0x1))))
    tt []
  = newPromise (ext := Sample.externals) 0
      (Sample.pollArguments
         (Sample.scripted [Sample.ok (Sample.statusText Sample.received_null);
                           Sample.ok (Sample.statusText Sample.pending_pending)]
            (Sample.ok (Sample.statusText Sample.rejected_0x1))))
      tt
      (afterQueries (ext := Sample.externals)
         (Sample.pollArguments
            (Sample.scripted [Sample.ok (Sample.statusText Sample.received_null);
                              Sample.ok (Sample.statusText Sample.pending_pending)]
               (Sample.ok (Sample.statusText Sample.rejected_0x1))))
         [] 2).
Proof.
  refine (proj2 (proj2
            (@polling_promise_continues Sample.externals unit tt 1 0
               (Sample.pollArguments
                  (Sample.scripted [Sample.ok (Sample.statusText Sample.received_null);
                                    Sample.ok (Sample.statusText Sample.pending_pending)]
                     (Sample.ok (Sample.statusText Sample.rejected_0x1))))
               [] 5000 _ _ _))).
  reflexivity.
Defined.

(** X5: a promise is fulfilled only with the value it was made for, and only
    after a status query observed an accepted status; every query before that
    one observed a status that is neither accepted nor rejected. *)
Theorem fulfilled_only_after_accepted_status :
  forall (ext : Externals) (A : Type) (value v : A) (timers : nat)
         (arguments : PollArguments) (t t' : Trace),
    newPromise timers arguments value t = (Fulfilled v, t') ->
    v = value
    /\ exists k statusObject,
         k <= timers
         /\ t' = afterQueries arguments t (S k)
         /\ observes arguments (afterQueries arguments t k) statusObject
         /\ isTxAccepted statusObject = true
         /\ (forall i, i < k ->
               exists earlier,
                 observes arguments (afterQueries arguments t i) earlier
                 /\ pollsAgain earlier).
Proof.
  intros ext A value v timers arguments t t' H.
  destruct (newPromise_history _ _ _ _ H) as [k [Hk [Ht' [Hbefore Hlast]]]].
  destruct (fst (iterativelyCheckStatus arguments (afterQueries arguments t k)))
    as [e | a] eqn:E; [discriminate|].
  destruct (iterativelyCheckStatus_returns _ _ E) as [so [Ho Ha]].
  destruct a as [ | reason | d a]; cbn in Hlast; try discriminate; [|now destruct Hlast].
  assert (Hv : v = value) by congruence. split; trivial.
  exists k, so.
  split; [exact Hk|]. split; [exact Ht'|]. split; [exact Ho|]. split.
  - destruct (isTxAccepted so); trivial.
    destruct (isTxRejected so); discriminate Ha.
  - intros i Hi. destruct (Hbefore i Hi) as [earlier [Ho' [Hacc Hrej]]].
    exists earlier. split; trivial.
    now apply pollsAgain_spec.
Qed.

(** The sample promise is fulfilled at the second poll, which observes
    ACCEPTED_ONCHAIN in block 0x1. *)
Lemma fulfilled_only_after_accepted_status_witness :
  exists k statusObject,
    k <= 3
    /\ afterQueries (ext := Sample.externals)
         (Sample.pollArguments
            (Sample.scripted [Sample.ok (Sample.statusText Sample.received_null)]
               (Sample.ok (Sample.statusText Sample.accepted_0x1))))
         [] 2
       = afterQueries (ext := Sample.externals)
           (Sample.pollArguments
              (Sample.scripted [Sample.ok (Sample.statusText Sample.received_null)]
                 (Sample.ok (Sample.statusText Sample.accepted_0x1))))
           [] (S k)
    /\ observes (ext := Sample.externals)
         (Sample.pollArguments
            (Sample.scripted [Sample.ok (Sample.statusText Sample.received_null)]
               (Sample.ok (Sample.statusText Sample.accepted_0x1))))
         (afterQueries (ext := Sample.externals)
            (Sample.pollArguments
               (Sample.scripted [Sample.ok (Sample.statusText Sample.received_null)]
                  (Sample.ok (Sample.statusText Sample.accepted_0x1))))
            [] k)
         statusObject
    /\ isTxAccepted statusObject = true
    /\ (forall i, i < k ->
          exists earlier,
            observes (ext := Sample.externals)
              (Sample.pollArguments
                 (Sample.scripted [Sample.ok (Sample.statusText Sample.received_null)]
                    (Sample.ok (Sample.statusText Sample.accepted_0x1))))
              (afterQueries (ext := Sample.externals)
                 (Sample.pollArguments
                    (Sample.scripted [Sample.ok (Sample.statusText Sample.received_null)]
                       (Sample.ok (Sample.statusText Sample.accepted_0x1))))
                 [] i)
              earlier
            /\ pollsAgain earlier).
Proof.
  exact (proj2
           (@fulfilled_only_after_accepted_status Sample.externals unit tt tt 3
              (Sample.pollArguments
                 (Sample.scripted [Sample.ok (Sample.statusText Sample.received_null)]
                    (Sample.ok (Sample.statusText Sample.accepted_0x1))))
              [] _ eq_refl)).
Defined.

(** X6: a promise is rejected only with the transaction-rejected error, and
    only after a status query observed the status REJECTED. *)
Theorem rejected_only_after_rejected_status :
  forall (ext : Externals) (A : Type) (value : A) (timers : nat)
         (arguments : PollArguments) (t t' : Trace) (reason : Thrown),
    newPromise timers arguments value t = (Rejected reason, t') ->
    reason = Error "Transaction rejected."
    /\ exists k statusObject,
         k <= timers
         /\ t' = afterQueries arguments t (S k)
         /\ observes arguments (afterQueries arguments t k) statusObject
         /\ tx_status statusObject = REJECTED.
Proof.
  intros ext A value timers arguments t t' reason H.
  destruct (newPromise_history _ _ _ _ H) as [k [Hk [Ht' [_ Hlast]]]].
  destruct (fst (iterativelyCheckStatus arguments (afterQueries arguments t k)))
    as [e | a] eqn:E; [discriminate|].
  destruct (iterativelyCheckStatus_returns _ _ E) as [so [Ho Ha]].
  destruct a as [ | reason' | d a]; cbn in Hlast; try discriminate; [|now destruct Hlast].
  assert (Hr : reason = reason') by congruence. subst reason'.
  destruct (isTxAccepted so); [discriminate Ha|].
  destruct (isTxRejected so) eqn:Hrej; [|discriminate Ha].
  split; [injection Ha as ->; reflexivity|].
  exists k, so. repeat split; trivial; try apply Ho.
  now apply isTxRejected_spec.
Qed.

(** The sample promise is rejected at the second poll, which observes
    REJECTED. *)
Lemma rejected_only_after_rejected_status_witness :
  exists k statusObject,
    k <= 3
    /\ afterQueries (ext := Sample.externals)
         (Sample.pollArguments
            (Sample.scripted [Sample.ok (Sample.statusText Sample.received_null)]
               (Sample.ok (Sample.statusText Sample.rejected_0x1))))
         [] 2
       = afterQueries (ext := Sample.externals)
           (Sample.pollArguments
            (Sample.scripted [Sample.ok (Sample.statusText Sample.received_null)]
               (Sample.ok (Sample.statusText Sample.rejected_0x1))))
           [] (S k)
    /\ observes (ext := Sample.externals)
         (Sample.pollArguments
            (Sample.scripted [Sample.ok (Sample.statusText Sample.received_null)]
               (Sample.ok (Sample.statusText Sample.rejected_0x1))))
         (afterQueries (ext := Sample.externals)
            (Sample.pollArguments
            (Sample.scripted [Sample.ok (Sample.statusText Sample.received_null)]
               (Sample.ok (Sample.statusText Sample.rejected_0x1))))
            [] k)
         statusObject
    /\ tx_status statusObject = REJECTED.
Proof.
  exact (proj2
           (@rejected_only_after_rejected_status Sample.externals unit tt 3
              (Sample.pollArguments
            (Sample.scripted [Sample.ok (Sample.statusText Sample.received_null)]
               (Sample.ok (Sample.statusText Sample.rejected_0x1))))
              [] _ _ eq_refl)).
Defined.

(** X7: a promise is abandoned only when a status query failed, or printed
    text that [JSON.parse] rejects, or printed text that parses to [null].
    The error left unhandled is the plugin error with the stderr of the
    failed command, the plugin error with the text that could not be
    interpreted, or the TypeError of reading the status of [null]. *)
Theorem abandoned_only_after_failed_query :
  forall (ext : Externals) (A : Type) (value : A) (timers : nat)
         (arguments : PollArguments) (t t' : Trace) (unhandled : Thrown),
    newPromise timers arguments value t = (Abandoned unhandled, t') ->
    exists k,
      k <= timers
      /\ t' = afterQueries arguments t (S k)
      /\ let executed :=
           poll_starknetWrapper arguments (afterQueries arguments t k)
             (txStatusCommand arguments) in
         (statusCode executed <> 0%Z
          /\ unhandled = HardhatPluginError PLUGIN_NAME (stderr executed))
         \/ (statusCode executed = 0%Z
             /\ JSON_parse_status (stdout executed) = None
             /\ unhandled
                = HardhatPluginError PLUGIN_NAME
                    ("Cannot interpret the following: " ++ stdout executed))
         \/ (statusCode executed = 0%Z
             /\ JSON_parse_status (stdout executed) = Some ParsedNull
             /\ exists message, unhandled = TypeError message).
Proof.
  intros ext A value timers arguments t t' unhandled H.
  destruct (newPromise_history _ _ _ _ H) as [k [Hk [Ht' [_ Hlast]]]].
  exists k. split; [exact Hk|]. split; [exact Ht'|]. cbv zeta.
  rewrite iterativelyCheckStatus_run in Hlast. cbn [fst] in Hlast. cbv zeta in Hlast.
  destruct (Js.truthy_number _) eqn:Hc.
  - left. split; [|congruence].
    intros Hz. apply truthy_number_false in Hz. congruence.
  - apply truthy_number_false in Hc.
    destruct (JSON_parse_status _) as [[|so]|] eqn:Hp.
    + right; right. repeat split; trivial.
      exists "Cannot read properties of null (reading 'tx_status')". congruence.
    + destruct (isTxAccepted so); [discriminate Hlast|].
      destruct (isTxRejected so); [discriminate Hlast|]. now destruct Hlast.
    + right; left. repeat split; trivial. congruence.
Qed.

(** The status query of the sample poller prints null. *)
Lemma abandoned_only_after_failed_query_witness :
  exists k,
    k <= 2
    /\ [txStatusCommand (ext := Sample.externals)
          (Sample.pollArguments (Sample.always (Sample.ok "null")))]
       = afterQueries (ext := Sample.externals)
           (Sample.pollArguments (Sample.always (Sample.ok "null")))
           [] (S k)
    /\ let executed :=
         poll_starknetWrapper
           (Sample.pollArguments (Sample.always (Sample.ok "null")))
           (afterQueries (ext := Sample.externals)
              (Sample.pollArguments (Sample.always (Sample.ok "null")))
              [] k)
           (txStatusCommand (ext := Sample.externals)
              (Sample.pollArguments (Sample.always (Sample.ok "null")))) in
       (statusCode executed <> 0%Z
        /\ TypeError "Cannot read properties of null (reading 'tx_status')"
           = HardhatPluginError (PLUGIN_NAME (Externals := Sample.externals)) (stderr executed))
       \/ (statusCode executed = 0%Z
           /\ JSON_parse_status (Externals := Sample.externals) (stdout executed) = None
           /\ TypeError "Cannot read properties of null (reading 'tx_status')"
              = HardhatPluginError (PLUGIN_NAME (Externals := Sample.externals))
                  ("Cannot interpret the following: " ++ stdout executed))
       \/ (statusCode executed = 0%Z
           /\ JSON_parse_status (Externals := Sample.externals) (stdout executed)
              = Some ParsedNull
           /\ exists message,
                TypeError "Cannot read properties of null (reading 'tx_status')"
                = TypeError message).
Proof.
  exact (@abandoned_only_after_failed_query Sample.externals unit tt 2
           (Sample.pollArguments (Sample.always (Sample.ok "null")))
           [] _ _ eq_refl).
Defined.

(** ** The contract handle, beyond its checks *)

Section Handle.

Context {ext : Externals}.

(** [invokeOrCall] either throws before it submits anything, or submits one
    command, made of the fixed flags, the adapted inputs when arguments were
    given, and the signature, and then goes by the exit status. *)
Lemma invokeOrCall_outcome (this : StarknetContract) (kind : Kind) (functionName : string)
    (args : option (Args Value)) (signature : option (list Numeric)) (t : Trace) :
  (exists e, invokeOrCall this kind functionName args signature t = (inl e, t))
  \/ exists this_address func inputsPart,
       address this = Some this_address
       /\ this_address <> EmptyString
       /\ abi_get functionName (abi this) = Some func
       /\ isArray args = false
       /\ ((provided args = false /\ inputsPart = [])
           \/ exists a adapted,
                args = Some a
                /\ keysLength a <> 0
                /\ adaptInput (Some functionName) a (inputs func) (abi this) = inr adapted
                /\ inputsPart = "--inputs" :: adapted)
       /\ let submitted :=
            invokeOrCallCommand this
              (handleSignature signature
                 (invokeOrCallArgs this kind functionName this_address ++ inputsPart)) in
          let executed := starknetWrapper this t submitted in
          invokeOrCall this kind functionName args signature t
          = (if Js.truthy_number (statusCode executed)
             then inl (InvocationFailed kind functionName executed)
             else inr executed,
             t ++ [submitted]).
Proof.
  unfold invokeOrCall.
  destruct (address this) as [this_address|] eqn:Ha; [|left; eexists; reflexivity].
  destruct this_address as [|c0 rest] eqn:Hs; cbn [Js.truthy_string negb];
    [left; eexists; reflexivity|]. rewrite <- Hs.
  destruct (abi_get functionName (abi this)) as [func|] eqn:Hf;
    [|left; eexists; reflexivity].
  destruct (isArray args) eqn:Harr; [left; eexists; reflexivity|].
  destruct args as [a|].
  - destruct (Nat.eqb_spec (keysLength a) 0) as [Hk | Hk]; cbn [negb].
    + right. exists this_address, func, []. rewrite app_nil_r.
      repeat split; trivial; try congruence.
      * left. split; trivial. cbn. now rewrite Hk.
      * unfold runCommand, invokeOrCallCommand, handleSignature, invokeOrCallArgs,
          InvocationFailed.
        cbn [bind ret throw Monad_M].
        match goal with
        | |- context [Js.truthy_number ?x] => destruct (Js.truthy_number x)
        end; destruct signature; reflexivity.
    + destruct (adaptInput (Some functionName) a (inputs func) (abi this))
        as [message | adapted] eqn:Had.
      * left. exists (Raised FromAdapt message).
        cbn [bind Monad_M]. unfold lift. reflexivity.
      * right. exists this_address, func, ("--inputs" :: adapted).
        repeat split; trivial; try congruence.
        -- right. exists a, adapted. auto.
        -- cbn [bind Monad_M]. unfold lift. cbn [imported].
           unfold runCommand, invokeOrCallCommand, handleSignature, invokeOrCallArgs,
             InvocationFailed.
           cbn [bind ret throw Monad_M].
           replace ((([Kind_string kind; "--address"; this_address; "--abi";
                       abiPath this; "--function"; functionName; "--gateway_url";
                       adaptUrl (gatewayUrl this); "--feeder_gateway_url";
                       adaptUrl (feederGatewayUrl this)] ++ ["--inputs"]) ++ adapted))
             with ([Kind_string kind; "--address"; this_address; "--abi";
                    abiPath this; "--function"; functionName; "--gateway_url";
                    adaptUrl (gatewayUrl this); "--feeder_gateway_url";
                    adaptUrl (feederGatewayUrl this)] ++ "--inputs" :: adapted)
             by (now rewrite <- app_assoc).
           match goal with
           | |- context [Js.truthy_number ?x] => destruct (Js.truthy_number x)
           end; destruct signature; reflexivity.
  - right. exists this_address, func, []. rewrite app_nil_r.
    repeat split; trivial; try congruence.
    + left. split; trivial.
    + unfold runCommand, invokeOrCallCommand, handleSignature, invokeOrCallArgs,
        InvocationFailed.
      cbn [bind ret throw Monad_M].
      match goal with
      | |- context [Js.truthy_number ?x] => destruct (Js.truthy_number x)
      end; destruct signature; reflexivity.
Qed.

(** [invoke], step by step. *)
Lemma invoke_run (timers : nat) (this : StarknetContract) (functionName : string)
    (args : option (Args Value)) (signature : option (list Numeric)) (t : Trace) :
  invoke timers this functionName args signature t
  = match invokeOrCall this Invoke functionName args signature t with
    | (inl e, t') => (inl e, t')
    | (inr executed, t') =>
        match extractTxHash (stdout executed) with
        | inl e => (inl e, t')
        | inr txHash =>
            let (wait, t'') := newPromise timers (contractPoll this txHash) tt t' in
            (inr wait, t'')
        end
    end.
Proof.
  unfold invoke. cbn [bind Monad_M].
  destruct (invokeOrCall this Invoke functionName args signature t) as [[e | executed] t'];
    trivial.
Qed.

(** [call], step by step. *)
Lemma call_run (this : StarknetContract) (functionName : string)
    (args : option (Args Value)) (signature : option (list Numeric)) (t : Trace) :
  call this functionName args signature t
  = match invokeOrCall this Call functionName args signature t with
    | (inl e, t') => (inl e, t')
    | (inr executed, t') =>
        match abi_get functionName (abi this) with
        | Some func =>
            (imported FromAdapt (adaptOutput (stdout executed) (outputs func) (abi this)), t')
        | None =>
            (inl (TypeError "Cannot read properties of undefined (reading 'outputs')"), t')
        end
    end.
Proof.
  unfold call. cbn [bind Monad_M].
  destruct (invokeOrCall this Call functionName args signature t) as [[e | executed] t'];
    trivial.
  destruct (abi_get functionName (abi this)) as [func|]; trivial.
  cbn [bind ret Monad_M]. unfold lift.
  destruct (imported FromAdapt _); reflexivity.
Qed.

End Handle.

(** X8: [invokeOrCall] submits at most one command.  It throws without
    submitting, or it submits one starknet command whose first argument is the
    kind and whose only file is the ABI file; it returns a result only when
    that command ended with status 0, and the result is then the one of the
    command; when the command ended with another status, it throws the
    adapted log of its stderr. *)
Theorem invokeOrCall_submits_at_most_one_command :
  forall (ext : Externals) (this : StarknetContract) (kind : Kind) (functionName : string)
         (given : option (Args Value)) (signature : option (list Numeric)) (t : Trace),
    (exists e, invokeOrCall this kind functionName given signature t = (inl e, t))
    \/ exists submitted,
         command submitted = "starknet"
         /\ hd_error (args submitted) = Some (Kind_string kind)
         /\ paths submitted = Some [abiPath this]
         /\ let executed := starknetWrapper this t submitted in
            (statusCode executed <> 0%Z
             /\ invokeOrCall this kind functionName given signature t
                = (inl (InvocationFailed kind functionName executed), t ++ [submitted]))
            \/ (statusCode executed = 0%Z
                /\ invokeOrCall this kind functionName given signature t
                   = (inr executed, t ++ [submitted])).
Proof.
  intros ext this kind functionName given signature t.
  destruct (invokeOrCall_outcome this kind functionName given signature t)
    as [H | [this_address [func [inputsPart [_ [_ [_ [_ [_ H]]]]]]]]]; [now left|].
  right. cbv zeta in H.
  exists (invokeOrCallCommand this
            (handleSignature signature
               (invokeOrCallArgs this kind functionName this_address ++ inputsPart))).
  split; [reflexivity|]. split; [|split; [reflexivity|]].
  - unfold invokeOrCallCommand, handleSignature, invokeOrCallArgs. cbn [args].
    destruct signature; reflexivity.
  - cbv zeta. rewrite H.
    destruct (Js.truthy_number _) eqn:Hc.
    + left. split; trivial. intros Hz. apply truthy_number_false in Hz. congruence.
    + right. split; trivial. now apply truthy_number_false.
Qed.

(** X9: on a deployed handle, for a function of the ABI and an object of
    arguments that is not empty, [invokeOrCall] first adapts the arguments
    against the inputs the function declares.  When the adapter throws,
    nothing is submitted and its error goes to the caller; otherwise the one
    command submitted carries the fixed flags, then the inputs flag with the
    adapted values, then the signature flag with the signature when one was
    given. *)
Theorem invokeOrCall_passes_adapted_inputs_before_signature :
  forall (ext : Externals) (this : StarknetContract) (kind : Kind) (functionName : string)
         (func : AbiEntry) (fields : StringMap Value) (signature : option (list Numeric))
         (this_address : string) (t : Trace),
    address this = Some this_address ->
    this_address <> EmptyString ->
    abi_get functionName (abi this) = Some func ->
    fields <> [] ->
    (forall message,
       adaptInput (Some functionName) (ObjectArgs fields) (inputs func) (abi this)
       = inl message ->
       invokeOrCall this kind functionName (Some (ObjectArgs fields)) signature t
       = (inl (Raised FromAdapt message), t))
    /\ (forall adapted,
          adaptInput (Some functionName) (ObjectArgs fields) (inputs func) (abi this)
          = inr adapted ->
          let submitted :=
            invokeOrCallCommand this
              (invokeOrCallArgs this kind functionName this_address
               ++ "--inputs" :: adapted
               ++ match signature with
                  | Some parts => "--signature" :: map toString parts
                  | None => []
                  end) in
          let executed := starknetWrapper this t submitted in
          invokeOrCall this kind functionName (Some (ObjectArgs fields)) signature t
          = (if Js.truthy_number (statusCode executed)
             then inl (InvocationFailed kind functionName executed)
             else inr executed,
             t ++ [submitted])).
Proof.
  intros ext this kind functionName func fields signature this_address t Ha Hne Hf Hfields.
  unfold invokeOrCall. rewrite Ha, Hf.
  destruct this_address as [|c0 rest]; [now elim Hne|]. cbn [Js.truthy_string negb isArray].
  destruct fields as [|field fields]; [now elim Hfields|].
  cbn [keysLength length Nat.eqb negb]. split.
  - intros message Had. cbn [bind Monad_M]. unfold lift. rewrite Had. reflexivity.
  - intros adapted Had.
    cbn [bind Monad_M]. unfold lift. rewrite Had. cbn [imported].
    unfold runCommand, invokeOrCallCommand, invokeOrCallArgs, InvocationFailed.
    cbn [bind ret throw Monad_M].
    destruct signature as [parts|]; rewrite <- ?app_assoc, ?app_nil_r; cbn [app];
      match goal with
      | |- context [Js.truthy_number ?x] => destruct (Js.truthy_number x)
      end; reflexivity.
Qed.

(** An invoke of increase_balance with an amount and a signature. *)
Lemma invokeOrCall_passes_adapted_inputs_before_signature_witness :
  invokeOrCall (ext := Sample.externals)
    (Sample.contract (Sample.always (Sample.ok Sample.invokeOutput)) (Some "0x1"))
    Invoke "increase_balance" (Some (ObjectArgs [("amount", "10")])) (Some ["7"; "8"]) []
  = (inr (Sample.ok Sample.invokeOutput),
     [{| command := "starknet";
         args := ["invoke";
                  "--address"; "0x1";
                  "--abi"; "contract_abi.json";
                  "--function"; "increase_balance";
                  "--gateway_url"; "http://localhost:5000";
                  "--feeder_gateway_url"; "http://localhost:5000";
                  "--inputs"; "10";
                  "--signature"; "7"; "8"];
         paths := Some ["contract_abi.json"] |}]).
Proof.
  refine (proj2 (@invokeOrCall_passes_adapted_inputs_before_signature Sample.externals
                   (Sample.contract (Sample.always (Sample.ok Sample.invokeOutput)) (Some "0x1"))
                   Invoke "increase_balance" Sample.increase_balance [("amount", "10")]
                   (Some ["7"; "8"]) "0x1" [] eq_refl _ eq_refl _)
            ["10"] eq_refl).
  - discriminate.
  - discriminate.
Defined.

(** X10: on a deployed handle, an invoke or call of a name for which the
    index has no entry throws the unknown-function error before anything is
    submitted.  The name is taken not to be a member every object inherits,
    and the index not to have the key __proto__: there the lookup of the
    source is the lookup among the entries. *)
Theorem unknown_function_fails_before_submission :
  forall (ext : Externals) (this : StarknetContract) (functionName : string)
         (given : option (Args Value)) (signature : option (list Numeric)) (t : Trace),
    Js.truthy (address this) = true ->
    abi_get functionName (abi this) = None ->
    ~ In functionName objectPrototypeMembers ->
    abi_get "__proto__" (abi this) = None ->
    (forall kind : Kind,
       invokeOrCall this kind functionName given signature t
       = (inl (UnknownFunction functionName), t))
    /\ (forall timers : nat,
          invoke timers this functionName given signature t
          = (inl (UnknownFunction functionName), t))
    /\ call this functionName given signature t = (inl (UnknownFunction functionName), t).
Proof.
  intros ext this functionName given signature t Ha Hf _ _.
  assert (E : forall kind,
             invokeOrCall this kind functionName given signature t
             = (inl (UnknownFunction functionName), t)).
  { intros kind. unfold invokeOrCall.
    destruct (address this) as [a|]; [|discriminate].
    cbn in Ha. rewrite Ha, Hf. reflexivity. }
  split; [exact E|]. split.
  - intros timers. rewrite invoke_run, E. reflexivity.
  - rewrite call_run, E. reflexivity.
Qed.

(** A call of a function the sample contract does not have. *)
Lemma unknown_function_fails_before_submission_witness :
  call (ext := Sample.externals)
    (Sample.contract (Sample.always (Sample.ok "10")) (Some "0x1"))
    "decrease_balance" None None []
  = (inl (HardhatPluginError "Starknet"
            "Function 'decrease_balance' doesn't exist on this contract."), []).
Proof.
  refine (proj2 (proj2
            (@unknown_function_fails_before_submission Sample.externals
               (Sample.contract (Sample.always (Sample.ok "10")) (Some "0x1"))
               "decrease_balance" None None [] eq_refl eq_refl _ eq_refl))).
  cbn. intuition discriminate.
Defined.

(** X11: [call] returns a value only as the adapted output of one command:
    the function is in the index, one call command was submitted and ended
    with status 0, and the value is what the adapter makes of its stdout
    against the outputs the function declares.  No status query is issued. *)
Theorem call_returns_adapted_output_of_one_command :
  forall (ext : Externals) (this : StarknetContract) (functionName : string)
         (given : option (Args Value)) (signature : option (list Numeric)) (t : Trace)
         (result : StringMap Value),
    fst (call this functionName given signature t) = inr result ->
    exists func submitted,
      abi_get functionName (abi this) = Some func
      /\ snd (call this functionName given signature t) = t ++ [submitted]
      /\ hd_error (args submitted) = Some "call"
      /\ statusCode (starknetWrapper this t submitted) = 0%Z
      /\ adaptOutput (stdout (starknetWrapper this t submitted)) (outputs func) (abi this)
         = inr result.
Proof.
  intros ext this functionName given signature t result H.
  rewrite call_run in H |- *.
  destruct (invokeOrCall_outcome this Call functionName given signature t)
    as [[e E] | [this_address [func [inputsPart [_ [_ [Hf [_ [_ E]]]]]]]]].
  - rewrite E in H. discriminate.
  - cbv zeta in E. rewrite E in H |- *. rewrite Hf in H |- *.
    destruct (Js.truthy_number _) eqn:Hc; [discriminate|].
    cbn [fst snd] in *.
    exists func. eexists. split; [reflexivity|]. split; [reflexivity|].
    split; [|split].
    + unfold invokeOrCallCommand, handleSignature, invokeOrCallArgs. cbn [args].
      destruct signature; reflexivity.
    + now apply truthy_number_false.
    + destruct (adaptOutput _ _ _); cbn in H; congruence.
Qed.

(** A call of get_balance on the sample contract. *)
Lemma call_returns_adapted_output_of_one_command_witness :
  exists func submitted,
    abi_get "get_balance"
      (abi (Sample.contract (Sample.always (Sample.ok "10")) (Some "0x1")))
    = Some func
    /\ snd (call (ext := Sample.externals)
              (Sample.contract (Sample.always (Sample.ok "10")) (Some "0x1"))
              "get_balance" None None [])
       = [] ++ [submitted]
    /\ hd_error (args submitted) = Some "call"
    /\ statusCode (Sample.always (Sample.ok "10") [] submitted) = 0%Z
    /\ adaptOutput (Externals := Sample.externals)
         (stdout (Sample.always (Sample.ok "10") [] submitted)) (outputs func)
         (abi (Sample.contract (Sample.always (Sample.ok "10")) (Some "0x1")))
       = inr [("res", "10")].
Proof.
  exact (@call_returns_adapted_output_of_one_command Sample.externals
           (Sample.contract (Sample.always (Sample.ok "10")) (Some "0x1"))
           "get_balance" None None [] [("res", "10")] eq_refl).
Defined.

(** The poll that fulfilled a promise. *)
Lemma fulfilled_history {ext : Externals} (A : Type) (value v : A) (timers : nat)
    (arguments : PollArguments) (t t' : Trace) :
  newPromise timers arguments value t = (Fulfilled v, t') ->
  exists k statusObject,
    k <= timers
    /\ t' = afterQueries arguments t (S k)
    /\ observes arguments (afterQueries arguments t k) statusObject
    /\ isTxAccepted statusObject = true.
Proof.
  intros H.
  destruct (newPromise_history _ _ _ _ H) as [k [Hk [Ht' [_ Hlast]]]].
  destruct (fst (iterativelyCheckStatus arguments (afterQueries arguments t k)))
    as [e | a] eqn:E; [discriminate|].
  destruct (iterativelyCheckStatus_returns _ _ E) as [so [Ho Ha]].
  destruct a as [ | reason | d a]; cbn in Hlast; try discriminate; [|now destruct Hlast].
  exists k, so. split; [exact Hk|]. split; [exact Ht'|]. split; [exact Ho|].
  destruct (isTxAccepted so); trivial.
  destruct (isTxRejected so); discriminate Ha.
Qed.

(** X12: [invoke] is fulfilled only after one invoke command ended with
    status 0 and printed a transaction hash line, and a status query for that
    hash then observed an accepted status. *)
Theorem invoke_fulfilled_only_after_accepted_status :
  forall (ext : Externals) (timers : nat) (this : StarknetContract) (functionName : string)
         (given : option (Args Value)) (signature : option (list Numeric)) (t : Trace)
         (v : unit),
    fst (invoke timers this functionName given signature t) = inr (Fulfilled v) ->
    exists submitted txHash k statusObject,
      hd_error (args submitted) = Some "invoke"
      /\ statusCode (starknetWrapper this t submitted) = 0%Z
      /\ extractTxHash (stdout (starknetWrapper this t submitted)) = inr txHash
      /\ k <= timers
      /\ snd (invoke timers this functionName given signature t)
         = afterQueries (contractPoll this txHash) (t ++ [submitted]) (S k)
      /\ observes (contractPoll this txHash)
           (afterQueries (contractPoll this txHash) (t ++ [submitted]) k) statusObject
      /\ isTxAccepted statusObject = true.
Proof.
  intros ext timers this functionName given signature t v H.
  rewrite invoke_run in H |- *.
  destruct (invokeOrCall_outcome this Invoke functionName given signature t)
    as [[e E] | [this_address [func [inputsPart [_ [_ [_ [_ [_ E]]]]]]]]].
  - rewrite E in H. discriminate.
  - cbv zeta in E. rewrite E in H |- *.
    destruct (Js.truthy_number _) eqn:Hc; [discriminate|].
    destruct (extractTxHash _) as [e | txHash] eqn:Hh; [discriminate|].
    destruct (newPromise timers (contractPoll this txHash) tt _) as [wait t''] eqn:Hp.
    cbn [fst snd] in *. assert (Hw : wait = Fulfilled v) by congruence. subst wait.
    destruct (@fulfilled_history _ _ _ _ _ _ _ _ Hp) as [k [so [Hk [Ht [Ho Hacc]]]]].
    eexists. exists txHash, k, so. split; [|split; [|split; [exact Hh|]]].
    + unfold invokeOrCallCommand, handleSignature, invokeOrCallArgs. cbn [args].
      destruct signature; reflexivity.
    + now apply truthy_number_false.
    + auto.
Qed.

(** An invoke on the sample contract whose transaction is accepted at the
    second status query. *)
Lemma invoke_fulfilled_only_after_accepted_status_witness :
  exists submitted txHash k statusObject,
    hd_error (args submitted) = Some "invoke"
    /\ statusCode
         (Sample.scripted
            [Sample.ok Sample.invokeOutput;
             Sample.ok (Sample.statusText Sample.received_null)]
            (Sample.ok (Sample.statusText Sample.accepted_0x1)) [] submitted) = 0%Z
    /\ extractTxHash (ext := Sample.externals)
         (stdout
            (Sample.scripted
               [Sample.ok Sample.invokeOutput;
                Sample.ok (Sample.statusText Sample.received_null)]
               (Sample.ok (Sample.statusText Sample.accepted_0x1)) [] submitted))
       = inr txHash
    /\ k <= 4
    /\ snd (invoke (ext := Sample.externals) 4
              (Sample.contract
                 (Sample.scripted
                    [Sample.ok Sample.invokeOutput;
                     Sample.ok (Sample.statusText Sample.received_null)]
                    (Sample.ok (Sample.statusText Sample.accepted_0x1)))
                 (Some "0x1"))
              "increase_balance" (Some (ObjectArgs [("amount", "10")])) None [])
       = afterQueries (ext := Sample.externals)
           (contractPoll
              (Sample.contract
                 (Sample.scripted
                    [Sample.ok Sample.invokeOutput;
                     Sample.ok (Sample.statusText Sample.received_null)]
                    (Sample.ok (Sample.statusText Sample.accepted_0x1)))
                 (Some "0x1"))
              txHash)
           ([] ++ [submitted]) (S k)
    /\ observes (ext := Sample.externals)
         (contractPoll
            (Sample.contract
               (Sample.scripted
                  [Sample.ok Sample.invokeOutput;
                   Sample.ok (Sample.statusText Sample.received_null)]
                  (Sample.ok (Sample.statusText Sample.accepted_0x1)))
               (Some "0x1"))
            txHash)
         (afterQueries (ext := Sample.externals)
            (contractPoll
               (Sample.contract
                  (Sample.scripted
                     [Sample.ok Sample.invokeOutput;
                      Sample.ok (Sample.statusText Sample.received_null)]
                     (Sample.ok (Sample.statusText Sample.accepted_0x1)))
                  (Some "0x1"))
               txHash)
            ([] ++ [submitted]) k)
         statusObject
    /\ isTxAccepted statusObject = true.
Proof.
  exact (@invoke_fulfilled_only_after_accepted_status Sample.externals 4
           (Sample.contract
              (Sample.scripted
                 [Sample.ok Sample.invokeOutput;
                  Sample.ok (Sample.statusText Sample.received_null)]
                 (Sample.ok (Sample.statusText Sample.accepted_0x1)))
              (Some "0x1"))
           "increase_balance" (Some (ObjectArgs [("amount", "10")])) None [] tt eq_refl).
Defined.

(** ** The contract factory, beyond its checks *)

Section Factory.

Context {ext : Externals}.

(** [deploy], step by step. *)
Lemma deploy_run (timers : nat) (this : StarknetContractFactory)
    (constructorArguments : option (Args Value)) (signature : option (list Numeric))
    (t : Trace) :
  deploy timers this constructorArguments signature t
  = match handleConstructorArguments this constructorArguments (deployArgs this) with
    | inl e => (inl e, t)
    | inr starknetArgs =>
        let submitted := deployCommand this starknetArgs signature in
        let executed := factory_starknetWrapper this t submitted in
        if Js.truthy_number (statusCode executed)
        then (inl DeploymentRejected, t ++ [submitted])
        else
          match extractDeployment (stdout executed) with
          | inl e => (inl e, t ++ [submitted])
          | inr (address, txHash) =>
              match StarknetContract_new (factoryContractConfig this) with
              | inl e => (inl e, t ++ [submitted])
              | inr contract =>
                  let (wait, t') :=
                    newPromise timers (factoryPoll this txHash)
                      (set_address contract address) (t ++ [submitted]) in
                  (inr wait, t')
              end
          end
    end.
Proof.
  unfold deploy, deployArgs, deployCommand, factoryContractConfig, factoryPoll.
  cbn [bind Monad_M]. unfold lift at 1.
  destruct (handleConstructorArguments _ _ _) as [e | starknetArgs]; trivial.
  unfold runCommand. cbv zeta.
  destruct (Js.truthy_number _); trivial.
  cbn [bind Monad_M]. unfold lift at 1.
  destruct (extractDeployment _) as [e | [address txHash]]; trivial.
Qed.

(** What a new handle is made of. *)
Lemma StarknetContract_new_returns (config : StarknetContractConfig)
    (contract : StarknetContract) :
  StarknetContract_new config = inr contract ->
  readAbi (config_abiPath config) = inr (abi contract)
  /\ contract
     = {| starknetWrapper := config_starknetWrapper config;
          abi := abi contract;
          abiPath := config_abiPath config;
          address := None;
          gatewayUrl := config_gatewayUrl config;
          feederGatewayUrl := config_feederGatewayUrl config |}.
Proof.
  unfold StarknetContract_new. cbn [bind ret Monad_Result].
  destruct (readAbi (config_abiPath config)) as [e | a]; [discriminate|].
  intros H. injection H as <-. auto.
Qed.

End Factory.

(** X13: the handle [deploy] is fulfilled with is a deployed one.  Its
    address is the one the address line of the output of the deploy command
    gave, which is not empty; its index is what [readAbi] makes of the ABI
    file of the factory; and it talks to the wrapper and the gateways of the
    factory. *)
Theorem deploy_fulfils_with_deployed_contract :
  forall (ext : Externals) (timers : nat) (this : StarknetContractFactory)
         (constructorArguments : option (Args Value)) (signature : option (list Numeric))
         (t : Trace) (contract : StarknetContract),
    fst (deploy timers this constructorArguments signature t) = inr (Fulfilled contract) ->
    exists starknetArgs this_address,
      handleConstructorArguments this constructorArguments (deployArgs this)
      = inr starknetArgs
      /\ extractAddress
           (stdout (factory_starknetWrapper this t
                      (deployCommand this starknetArgs signature)))
         = inr this_address
      /\ address contract = Some this_address
      /\ this_address <> EmptyString
      /\ readAbi (factory_abiPath this) = inr (abi contract)
      /\ abiPath contract = factory_abiPath this
      /\ starknetWrapper contract = factory_starknetWrapper this
      /\ gatewayUrl contract = factory_gatewayUrl this
      /\ feederGatewayUrl contract = factory_feederGatewayUrl this.
Proof.
  intros ext timers this constructorArguments signature t contract H.
  rewrite deploy_run in H.
  destruct (handleConstructorArguments _ _ _) as [e | starknetArgs]; [discriminate|].
  cbv zeta in H. destruct (Js.truthy_number _); [discriminate|].
  destruct (extractDeployment _) as [e | [this_address txHash]] eqn:Hx; [discriminate|].
  destruct (StarknetContract_new _) as [e | fresh] eqn:Hn; [discriminate|].
  destruct (newPromise _ _ _ _) as [wait t'] eqn:Hp. cbn [fst] in H.
  assert (Hw : wait = Fulfilled contract) by congruence. subst wait.
  destruct (newPromise_history _ _ _ _ Hp) as [k [_ [_ [_ Hlast]]]].
  assert (Hc : contract = set_address fresh this_address).
  { destruct (fst (iterativelyCheckStatus _ _)) as [e | [ | reason | d a]];
      cbn in Hlast; try discriminate; [congruence | now destruct Hlast]. }
  apply extractDeployment_returns in Hx. destruct Hx as [Hx _].
  destruct (StarknetContract_new_returns _ Hn) as [Habi Hfresh].
  exists starknetArgs, this_address. subst contract. rewrite Hfresh. cbn.
  repeat split; trivial.
  intros ->. apply extractFromResponse_spec in Hx; [|reflexivity].
  now destruct Hx.
Qed.

(** A deploy of the sample contract, accepted at the first status query. *)
Lemma deploy_fulfils_with_deployed_contract_witness :
  exists starknetArgs this_address,
    handleConstructorArguments (ext := Sample.externals)
      (Sample.factory
         (Sample.scripted [Sample.ok Sample.deployOutput]
            (Sample.ok (Sample.statusText Sample.accepted_0x1))))
      None
      (deployArgs (ext := Sample.externals)
         (Sample.factory
            (Sample.scripted [Sample.ok Sample.deployOutput]
               (Sample.ok (Sample.statusText Sample.accepted_0x1)))))
    = inr starknetArgs
    /\ extractAddress (ext := Sample.externals)
         (stdout
            (Sample.scripted [Sample.ok Sample.deployOutput]
               (Sample.ok (Sample.statusText Sample.accepted_0x1)) []
               (deployCommand (ext := Sample.externals)
                  (Sample.factory
                     (Sample.scripted [Sample.ok Sample.deployOutput]
                        (Sample.ok (Sample.statusText Sample.accepted_0x1))))
                  starknetArgs None)))
       = inr this_address
    /\ Some "0x1" = Some this_address
    /\ this_address <> EmptyString
    /\ readAbi (ext := Sample.externals) "contract_abi.json"
       = inr [("increase_balance", Sample.increase_balance);
              ("get_balance", Sample.get_balance)]
    /\ "contract_abi.json" = "contract_abi.json"
    /\ Sample.scripted [Sample.ok Sample.deployOutput]
         (Sample.ok (Sample.statusText Sample.accepted_0x1))
       = Sample.scripted [Sample.ok Sample.deployOutput]
           (Sample.ok (Sample.statusText Sample.accepted_0x1))
    /\ "http://localhost:5000" = "http://localhost:5000"
    /\ "http://localhost:5000" = "http://localhost:5000".
Proof.
  exact (@deploy_fulfils_with_deployed_contract Sample.externals 0
           (Sample.factory
              (Sample.scripted [Sample.ok Sample.deployOutput]
                 (Sample.ok (Sample.statusText Sample.accepted_0x1))))
           None None []
           (Sample.contract
              (Sample.scripted [Sample.ok Sample.deployOutput]
                 (Sample.ok (Sample.statusText Sample.accepted_0x1)))
              (Some "0x1"))
           eq_refl).
Defined.

(** X14: when [deploy] throws, it has submitted at most its one deploy
    command and has issued no status query; when that command ends with a
    status other than 0, what it throws is the could-not-deploy error, and
    the output of the command is not looked at. *)
Theorem failed_deploy_issues_no_status_query :
  forall (ext : Externals) (timers : nat) (this : StarknetContractFactory)
         (constructorArguments : option (Args Value)) (signature : option (list Numeric))
         (t : Trace),
    (forall e,
       fst (deploy timers this constructorArguments signature t) = inl e ->
       snd (deploy timers this constructorArguments signature t) = t
       \/ exists starknetArgs,
            handleConstructorArguments this constructorArguments (deployArgs this)
            = inr starknetArgs
            /\ snd (deploy timers this constructorArguments signature t)
               = t ++ [deployCommand this starknetArgs signature])
    /\ (forall starknetArgs,
          handleConstructorArguments this constructorArguments (deployArgs this)
          = inr starknetArgs ->
          statusCode (factory_starknetWrapper this t
                        (deployCommand this starknetArgs signature)) <> 0%Z ->
          deploy timers this constructorArguments signature t
          = (inl DeploymentRejected, t ++ [deployCommand this starknetArgs signature])).
Proof.
  intros ext timers this constructorArguments signature t. split.
  - intros e. rewrite deploy_run.
    destruct (handleConstructorArguments _ _ _) as [e0 | starknetArgs]; [now left|].
    cbv zeta. intros H. right. exists starknetArgs. split; trivial. revert H.
    destruct (Js.truthy_number _); trivial.
    destruct (extractDeployment _) as [e1 | [this_address txHash]]; trivial.
    destruct (StarknetContract_new _) as [e2 | fresh]; trivial.
    destruct (newPromise _ _ _ _) as [wait t']. discriminate.
  - intros starknetArgs Hc Hs. rewrite deploy_run, Hc. cbv zeta.
    destruct (Js.truthy_number _) eqn:E; trivial.
    apply truthy_number_false in E. contradiction.
Qed.

(** The gateway refuses the deployment of the sample contract. *)
Lemma failed_deploy_issues_no_status_query_witness :
  deploy (ext := Sample.externals) 3
    (Sample.factory (Sample.always (Sample.failed "Connection refused")))
    None (Some ["7"]) []
  = (inl (HardhatPluginError "Starknet"
            "Could not deploy contract. Check the network url in config. Is it responsive?"),
     [{| command := "starknet";
         args := ["deploy"; "--contract"; "contract.json";
                  "--gateway_url"; "http://localhost:5000";
                  "--signature"; "7"];
         paths := Some ["contract.json"] |}]).
Proof.
  refine (proj2 (@failed_deploy_issues_no_status_query Sample.externals 3
                   (Sample.factory (Sample.always (Sample.failed "Connection refused")))
                   None (Some ["7"]) [])
            ["deploy"; "--contract"; "contract.json"; "--gateway_url"; "http://localhost:5000"]
            eq_refl _).
  discriminate.
Defined.

(** X15: [getContractAt] refuses the empty address, whatever the ABI file
    holds; for any other address it returns a handle exactly when the ABI
    file of the factory loads, and the handle carries that address, the index
    just read, and the wrapper and gateways of the factory.  The address is
    not checked in any other way, and no command is run. *)
Theorem getContractAt_binds_given_address :
  forall (ext : Externals) (this : StarknetContractFactory),
    getContractAt this EmptyString = inl EmptyAddress
    /\ (forall this_address : string,
          this_address <> EmptyString ->
          getContractAt this this_address
          = match readAbi (factory_abiPath this) with
            | inl e => inl e
            | inr index =>
                inr {| starknetWrapper := factory_starknetWrapper this;
                       abi := index;
                       abiPath := factory_abiPath this;
                       address := Some this_address;
                       gatewayUrl := factory_gatewayUrl this;
                       feederGatewayUrl := factory_feederGatewayUrl this |}
            end).
Proof.
  intros ext this. split; [reflexivity|].
  intros this_address Hne. unfold getContractAt.
  destruct this_address as [|c rest]; [now elim Hne|]. cbn [Js.truthy_string negb].
  unfold StarknetContract_new. cbn [bind ret Monad_Result config_abiPath].
  destruct (readAbi (factory_abiPath this)); reflexivity.
Qed.

(** A handle on the sample contract at a given address. *)
Lemma getContractAt_binds_given_address_witness :
  getContractAt (ext := Sample.externals)
    (Sample.factory (Sample.always (Sample.ok Sample.invokeOutput))) "0xabc"
  = inr (Sample.contract (Sample.always (Sample.ok Sample.invokeOutput)) (Some "0xabc")).
Proof.
  refine (proj2 (@getContractAt_binds_given_address Sample.externals
                   (Sample.factory (Sample.always (Sample.ok Sample.invokeOutput))))
            "0xabc" _).
  discriminate.
Defined.

(** X16: when [handleConstructorArguments] returns, either the factory has
    no constructor entry, no argument was given and the command arguments
    are untouched, or the factory has a constructor entry, arguments were
    given, the adapter accepted them against the inputs of that entry under
    its name, and the command arguments are the given ones followed by the
    inputs flag and the adapted values.  An error of the adapter goes to the
    caller as it is. *)
Theorem handleConstructorArguments_appends_adapted_inputs :
  forall (ext : Externals) (this : StarknetContractFactory)
         (constructorArguments : option (Args Value)) (starknetArgs : list string),
    (forall result,
       handleConstructorArguments this constructorArguments starknetArgs = inr result ->
       (constructorAbi this = None
        /\ provided constructorArguments = false
        /\ result = starknetArgs)
       \/ exists entry given adapted,
            constructorAbi this = Some entry
            /\ constructorArguments = Some given
            /\ keysLength given <> 0
            /\ adaptInput (name entry) given (inputs entry) (factory_abi this)
               = inr adapted
            /\ result = starknetArgs ++ "--inputs" :: adapted)
    /\ (forall entry given message,
          constructorAbi this = Some entry ->
          constructorArguments = Some given ->
          keysLength given <> 0 ->
          adaptInput (name entry) given (inputs entry) (factory_abi this) = inl message ->
          handleConstructorArguments this constructorArguments starknetArgs
          = inl (Raised FromAdapt message)).
Proof.
  intros ext this constructorArguments starknetArgs. split.
  - intros result. unfold handleConstructorArguments, provided.
    destruct (constructorAbi this) as [entry|];
      destruct constructorArguments as [given|]; cbn [bind ret throw Monad_Result].
    + destruct (Nat.eqb_spec (keysLength given) 0) as [E | E]; [discriminate|].
      destruct (adaptInput _ _ _ _) as [message | adapted] eqn:Had; cbn; [discriminate|].
      intros H. injection H as <-. right. exists entry, given, adapted.
      repeat split; trivial. now rewrite <- app_assoc.
    + discriminate.
    + destruct (Nat.eqb (keysLength given) 0); cbn; [|discriminate].
      intros H. injection H as <-. left. auto.
    + intros H. injection H as <-. left. auto.
  - intros entry given message Hc Hg Hk Had. unfold handleConstructorArguments.
    rewrite Hc, Hg. cbn [bind ret throw Monad_Result].
    destruct (Nat.eqb_spec (keysLength given) 0) as [E | E]; [contradiction|].
    rewrite Had. reflexivity.
Qed.

(** The sample factory with a constructor adapts the arguments given. *)
Lemma handleConstructorArguments_appends_adapted_inputs_witness :
  (constructorAbi (Sample.plainFactory (Sample.always (Sample.ok Sample.deployOutput))) = None
   /\ provided (Some (ObjectArgs [("initial_balance", "100")])) = false
   /\ ["deploy"; "--inputs"; "100"] = ["deploy"])
  \/ exists entry given adapted,
       constructorAbi (Sample.plainFactory (Sample.always (Sample.ok Sample.deployOutput)))
       = Some entry
       /\ Some (ObjectArgs [("initial_balance", "100")]) = Some given
       /\ keysLength given <> 0
       /\ adaptInput (Externals := Sample.externals) (name entry) given (inputs entry)
            (factory_abi
               (Sample.plainFactory (Sample.always (Sample.ok Sample.deployOutput))))
          = inr adapted
       /\ ["deploy"; "--inputs"; "100"] = ["deploy"] ++ "--inputs" :: adapted.
Proof.
  exact (proj1 (@handleConstructorArguments_appends_adapted_inputs Sample.externals
                  (Sample.plainFactory (Sample.always (Sample.ok Sample.deployOutput)))
                  (Some (ObjectArgs [("initial_balance", "100")])) ["deploy"])
           ["deploy"; "--inputs"; "100"] eq_refl).
Defined.

(** ** The ABI index, entry by entry *)

Lemma abi_set_keys (key : string) (value : AbiEntry) (abi : Abi) :
  map fst (abi_set key value abi)
  = if in_dec string_dec key (map fst abi) then map fst abi else map fst abi ++ [key].
Proof.
  induction abi as [|[k v] rest IH]; cbn [abi_set map fst].
  - destruct (in_dec string_dec key []) as [[] | _]. reflexivity.
  - destruct (String.eqb_spec k key) as [-> | Hne]; cbn [map fst].
    + destruct (in_dec string_dec key (key :: map fst rest)) as [_ | Hn]; trivial.
      elim Hn. now left.
    + rewrite IH.
      destruct (in_dec string_dec key (map fst rest)) as [Hin | Hnin];
        destruct (in_dec string_dec key (k :: map fst rest)) as [Hin' | Hnin']; trivial.
      * elim Hnin'. now right.
      * destruct Hin' as [E | Hin']; [congruence | contradiction].
Qed.

Lemma abi_set_NoDup (key : string) (value : AbiEntry) (abi : Abi) :
  NoDup (map fst abi) -> NoDup (map fst (abi_set key value abi)).
Proof.
  intros H. rewrite abi_set_keys.
  destruct (in_dec string_dec key (map fst abi)) as [Hin | Hnin]; trivial.
  apply NoDup_app; [exact H | repeat constructor; intros [] | ].
  intros x Hx [<- | []]. contradiction.
Qed.

Lemma abi_get_set (key key' : string) (value : AbiEntry) (abi : Abi) :
  abi_get key' (abi_set key value abi)
  = if String.eqb key key' then Some value else abi_get key' abi.
Proof.
  destruct (String.eqb_spec key key') as [<- | Hne].
  - apply abi_get_set_same.
  - apply abi_get_set_other. congruence.
Qed.

Lemma lastNamed_cons (key : string) (abiEntry : AbiEntry) (rest : list AbiEntry) :
  lastNamed key (abiEntry :: rest)
  = match lastNamed key rest with
    | Some later => Some later
    | None => if Js.strict_eq (name abiEntry) key then Some abiEntry else None
    end.
Proof.
  unfold lastNamed. cbn [rev].
  induction (rev rest) as [|x xs IH]; cbn [app find].
  - reflexivity.
  - destruct (Js.strict_eq (name x) key); trivial.
Qed.

Section Index.

Context {ext : Externals}.

Lemma readAbi_loop_index (abiArray : list AbiEntry) :
  forall abi0 abi : Abi,
    readAbi_loop abiArray abi0 = inr abi ->
    (NoDup (map fst abi0) -> NoDup (map fst abi))
    /\ (forall key,
          abi_get key abi
          = match lastNamed key abiArray with
            | Some abiEntry => Some abiEntry
            | None => abi_get key abi0
            end).
Proof.
  induction abiArray as [|abiEntry rest IH]; intros abi0 abi; cbn [readAbi_loop].
  - intros H. injection H as <-. split; trivial.
  - destruct (name abiEntry) as [key0|] eqn:Hn; [|discriminate].
    destruct (Js.truthy_string key0); cbn [negb]; [|discriminate].
    intros H. destruct (IH _ _ H) as [Hnd Hget]. split.
    + intros H0. apply Hnd. now apply abi_set_NoDup.
    + intros key. rewrite Hget, lastNamed_cons, Hn, abi_get_set. cbn [Js.strict_eq].
      destruct (lastNamed key rest); trivial.
      destruct (String.eqb key0 key); reflexivity.
Qed.

Lemma readAbi_returns (abiPath : string) (index : Abi) :
  readAbi abiPath = inr index ->
  exists abiRaw abiArray,
    readFileSync abiPath = inr abiRaw
    /\ JSON_parse_abi abiRaw = inr abiArray
    /\ readAbi_loop abiArray [] = inr index.
Proof.
  unfold readAbi.
  destruct (readFileSync abiPath) as [m | abiRaw] eqn:Hread; cbn; [discriminate|].
  destruct (JSON_parse_abi abiRaw) as [m | abiArray] eqn:Hparse; cbn; [discriminate|].
  intros H. exists abiRaw, abiArray. auto.
Qed.

End Index.

(** X17: the index [readAbi] returns has each key once, and under a key it
    holds the last entry of the array that has this name: a later entry
    replaces an earlier one of the same name.  The key looked up is taken not
    to be a member every object inherits, and no entry to be named
    __proto__: there the lookup of the source is the lookup among the
    entries. *)
Theorem readAbi_keeps_last_entry_of_each_name :
  forall (ext : Externals) (abiPath abiRaw : string) (abiArray : list AbiEntry)
         (index : Abi),
    readFileSync abiPath = inr abiRaw ->
    JSON_parse_abi abiRaw = inr abiArray ->
    (forall abiEntry, In abiEntry abiArray -> name abiEntry <> Some "__proto__") ->
    readAbi abiPath = inr index ->
    NoDup (map fst index)
    /\ (forall key,
          ~ In key objectPrototypeMembers ->
          abi_get key index = lastNamed key abiArray).
Proof.
  intros ext abiPath abiRaw abiArray index Hread Hparse _ H.
  destruct (readAbi_returns _ H) as [abiRaw' [abiArray' [Hread' [Hparse' Hloop]]]].
  assert (abiArray' = abiArray) as -> by congruence.
  destruct (readAbi_loop_index _ _ Hloop) as [Hnd Hget]. split.
  - apply Hnd. constructor.
  - intros key _. rewrite Hget. destruct (lastNamed key abiArray); reflexivity.
Qed.

(** An ABI file that declares transfer twice: the index has two keys, and
    transfer is the second declaration. *)
Lemma readAbi_keeps_last_entry_of_each_name_witness :
  NoDup (map fst [("transfer", Duplicates.second_transfer);
                  ("get_balance", Sample.get_balance)])
  /\ (forall key,
        ~ In key objectPrototypeMembers ->
        abi_get key [("transfer", Duplicates.second_transfer);
                     ("get_balance", Sample.get_balance)]
        = lastNamed key Duplicates.abiArray).
Proof.
  refine (@readAbi_keeps_last_entry_of_each_name Duplicates.externals
            "token_abi.json" "token_abi" Duplicates.abiArray
            [("transfer", Duplicates.second_transfer); ("get_balance", Sample.get_balance)]
            eq_refl eq_refl _ eq_refl).
  intros abiEntry [<- | [<- | [<- | []]]]; discriminate.
Defined.

(** ** The constructor entry of a factory *)

Lemma findConstructor_sound (abi : Abi) (entry : AbiEntry) :
  findConstructor abi = Some entry ->
  type entry = "constructor" /\ exists key, abi_get key abi = Some entry.
Proof.
  unfold findConstructor.
  assert (G : forall (keys : list string) (acc : option AbiEntry),
             fold_left
               (fun this_constructorAbi abiEntryName =>
                  match abi_get abiEntryName abi with
                  | Some abiEntry =>
                      if String.eqb (type abiEntry) "constructor" then Some abiEntry
                      else this_constructorAbi
                  | None => this_constructorAbi
                  end) keys acc = Some entry ->
             acc = Some entry
             \/ (type entry = "constructor" /\ exists key, abi_get key abi = Some entry)).
  { induction keys as [|k rest IH]; intros acc; cbn [fold_left]; [now left|].
    intros H. destruct (IH _ H) as [Hacc | Hfound]; [|now right].
    destruct (abi_get k abi) as [abiEntry|] eqn:Hk; [|now left].
    destruct (String.eqb_spec (type abiEntry) "constructor") as [Ht | Ht]; [|now left].
    injection Hacc as <-. right. split; trivial. now exists k. }
  intros H. destruct (G _ _ H) as [Hacc | Hfound]; [discriminate | exact Hfound].
Qed.

(** X18: in a factory that [new StarknetContractFactory] returns, the index
    is what [readAbi] makes of the ABI file; a constructor entry, when the
    factory has one, is an entry of the index of type constructor, filed
    under its own name, which is not empty; the factory has none only when
    no entry of the index is of type constructor; and when exactly one key of
    the index holds an entry of type constructor, that entry is the
    constructor entry.  The index is taken not to have the key __proto__. *)
Theorem factory_constructor_entry_is_the_constructor_of_the_index :
  forall (ext : Externals) (config : StarknetContractFactoryConfig)
         (factory : StarknetContractFactory),
    StarknetContractFactory_new config = inr factory ->
    abi_get "__proto__" (factory_abi factory) = None ->
    readAbi (config_abiPath (factoryConfig_base config)) = inr (factory_abi factory)
    /\ (forall entry,
          constructorAbi factory = Some entry ->
          type entry = "constructor"
          /\ exists key,
               key <> EmptyString
               /\ name entry = Some key
               /\ abi_get key (factory_abi factory) = Some entry)
    /\ (constructorAbi factory = None ->
        forall key entry,
          abi_get key (factory_abi factory) = Some entry -> type entry <> "constructor")
    /\ (forall key entry,
          abi_get key (factory_abi factory) = Some entry ->
          type entry = "constructor" ->
          (forall key' entry',
             abi_get key' (factory_abi factory) = Some entry' ->
             type entry' = "constructor" -> key' = key) ->
          constructorAbi factory = Some entry).
Proof.
  intros ext config factory H _.
  unfold StarknetContractFactory_new in H. cbn [bind ret Monad_Result] in H.
  destruct (readAbi (config_abiPath (factoryConfig_base config))) as [e | index] eqn:Hr;
    [discriminate|].
  injection H as <-. cbn [factory_abi constructorAbi].
  split; [reflexivity|]. split; [|split].
  - intros entry Hc. destruct (findConstructor_sound _ Hc) as [Ht [key Hk]].
    split; trivial. exists key.
    destruct (readAbi_returns _ Hr) as [abiRaw [abiArray [_ [_ Hloop]]]].
    destruct (readAbi_loop_returns _ _ Hloop) as [H1 [_ [_ H4]]].
    destruct (H4 _ _ Hk) as [H0 | [Hin Hname]]; [discriminate|].
    repeat split; trivial.
    intros ->. specialize (H1 _ Hin). rewrite Hname in H1. discriminate.
  - intros Hnone key entry Hk Ht.
    assert (Hs : findConstructor index <> None).
    { apply findConstructor_spec. now exists key, entry. }
    contradiction.
  - intros key entry Hk Ht Huniq.
    destruct (findConstructor index) as [found|] eqn:Hc.
    + destruct (findConstructor_sound _ Hc) as [Ht' [key' Hk']].
      assert (key' = key) as -> by now apply (Huniq key' found).
      congruence.
    + assert (Hs : findConstructor index <> None).
      { apply findConstructor_spec. now exists key, entry. }
      contradiction.
Qed.

(** The factory for the sample ABI with a plain constructor. *)
Lemma factory_constructor_entry_is_the_constructor_of_the_index_witness :
  constructorAbi (Sample.plainFactory (Sample.always (Sample.ok Sample.deployOutput)))
  = Some Sample.constructor_plain.
Proof.
  refine (proj2 (proj2 (proj2
            (@factory_constructor_entry_is_the_constructor_of_the_index Sample.externals
               {| factoryConfig_base :=
                    {| config_starknetWrapper := Sample.always (Sample.ok Sample.deployOutput);
                       config_abiPath := "plain_abi.json";
                       config_gatewayUrl := "http://localhost:5000";
                       config_feederGatewayUrl := "http://localhost:5000" |};
                  config_metadataPath := "plain.json" |}
               (Sample.plainFactory (Sample.always (Sample.ok Sample.deployOutput)))
               eq_refl eq_refl)))
            "constructor" Sample.constructor_plain eq_refl eq_refl _).
  intros key' entry' Hk Ht. unfold Sample.plainFactory in Hk.
  cbn [factory_abi abi_get] in Hk.
  destruct (String.eqb_spec "constructor" key') as [<- | _]; trivial.
  destruct (String.eqb "get_balance" key'); [|discriminate Hk].
  injection Hk as <-. discriminate Ht.
Defined.

(** ** What the extraction reads, line by line *)

Lemma singleLine_step (c : ascii) (s : string) :
  Js.singleLine (String c s)
  = match Js.lineTerminator (String c s) with
    | Some _ => false
    | None => Js.singleLine s
    end.
Proof.
  reflexivity.
Qed.

(** The rest of a single line is a single line. *)
Lemma singleLine_suffix (p c : string) :
  Js.singleLine (p ++ c) = true -> Js.singleLine c = true.
Proof.
  induction p as [|a p IH]; cbn [String.append]; trivial.
  rewrite singleLine_step.
  destruct (Js.lineTerminator (String a (p ++ c))); [discriminate | exact IH].
Qed.

(** A literal of ASCII characters in front of a single line gives a single
    line. *)
Lemma plain_singleLine_app (p c : string) :
  Js.plainText p = true -> Js.singleLine c = true -> Js.singleLine (p ++ c) = true.
Proof.
  intros Hp Hc. induction p as [|a p IH]; cbn [String.append]; trivial.
  apply plainText_cons in Hp. destruct Hp as [Ha Hp].
  rewrite singleLine_step, Ha. now apply IH.
Qed.

Lemma lineTerminator_head_dotStar (c : ascii) (s : string) :
  Js.lineTerminator (String c s) = None ->
  Js.lineTerminator (String c (Js.dotStar s)) = None.
Proof.
  cbn [Js.lineTerminator]. destruct (Js.isLineBreak c); [discriminate|].
  destruct s as [|c2 s2]; trivial.
  rewrite dotStar_step. destruct (Js.lineTerminator (String c2 s2)); trivial.
  destruct s2 as [|c3 s3]; trivial.
  rewrite dotStar_step. destruct (Js.lineTerminator (String c3 s3)); trivial.
  destruct (Js.isSeparator c c2 c3); [discriminate | reflexivity].
Qed.

Lemma dotStar_singleLine (s : string) : Js.singleLine (Js.dotStar s) = true.
Proof.
  induction s as [|c s IH]; trivial.
  rewrite dotStar_step. destruct (Js.lineTerminator (String c s)) eqn:E; trivial.
  now rewrite singleLine_step, (lineTerminator_head_dotStar _ _ E).
Qed.

Lemma lines_singleLine (s l : string) :
  In l (Js.lines s) -> Js.singleLine l = true.
Proof.
  assert (G : forall n s, String.length s <= n ->
              forall l, In l (Js.lines s) -> Js.singleLine l = true).
  { clear s l. induction n as [|n IH]; intros s Hn l.
    - destruct s as [|c s]; [|cbn in Hn; lia]. intros [<- | []]. reflexivity.
    - destruct s as [|c s]; [intros [<- | []]; reflexivity|].
      rewrite lines_step.
      destruct (Js.lineTerminator (String c s)) as [after|] eqn:E.
      + intros [<- | H]; [reflexivity|].
        apply (IH after); trivial.
        apply lineTerminator_shorter in E. cbn in E, Hn. lia.
      + destruct (lines_dotStar s) as [rest Hl]. rewrite Hl. cbn [Js.extendFirst].
        intros [<- | H].
        * now rewrite singleLine_step, (lineTerminator_head_dotStar _ _ E),
            dotStar_singleLine.
        * apply (IH s); [cbn in Hn; lia|]. rewrite Hl. now right. }
  now apply (G (String.length s)).
Qed.

Lemma firstCapture_Some (p capture : string) (ls : list string) :
  Js.firstCapture p ls = Some capture -> In (p ++ capture)%string ls.
Proof.
  induction ls as [|l rest IH]; cbn; [discriminate|].
  destruct (Js.stripPrefix p l) as [c|] eqn:E.
  - intros H. injection H as ->. left. now apply stripPrefix_Some.
  - intros H. right. auto.
Qed.

Lemma firstCapture_skip (p : string) (pre rest : list string) :
  Forall (fun l => Js.stripPrefix p l = None) pre ->
  Js.firstCapture p (pre ++ rest) = Js.firstCapture p rest.
Proof.
  induction 1 as [|l pre Hl _ IH]; cbn; trivial. now rewrite Hl.
Qed.

Lemma lines_single (l : string) :
  Js.singleLine l = true -> Js.lines l = [l].
Proof.
  induction l as [|c l IH]; trivial.
  rewrite singleLine_step, lines_step.
  destruct (Js.lineTerminator (String c l)); [discriminate|].
  intros H. now rewrite (IH H).
Qed.

Lemma lineTerminator_before_line_feed (c : ascii) (l s : string) :
  Js.lineTerminator (String c l) = None ->
  Js.lineTerminator (String c (l ++ LF ++ s)) = None.
Proof.
  cbn [Js.lineTerminator]. destruct (Js.isLineBreak c); [discriminate|].
  destruct l as [|c2 [|c3 l3]]; cbn [String.append].
  - intros _. unfold LF. cbn [String.append]. destruct s as [|c3 s3]; trivial.
    unfold Js.isSeparator. cbn [Ascii.eqb Bool.eqb]. now rewrite andb_false_r.
  - intros _. unfold LF. cbn [String.append].
    unfold Js.isSeparator. cbn [Ascii.eqb Bool.eqb orb]. now rewrite andb_false_r.
  - destruct (Js.isSeparator c c2 c3); [discriminate | reflexivity].
Qed.

Lemma lines_line_feed (l s : string) :
  Js.singleLine l = true ->
  Js.lines (l ++ LF ++ s) = l :: Js.lines s.
Proof.
  induction l as [|c l IH].
  - intros _. reflexivity.
  - rewrite singleLine_step.
    destruct (Js.lineTerminator (String c l)) eqn:E; [discriminate|].
    intros H. cbn [String.append].
    now rewrite lines_step, (lineTerminator_before_line_feed _ _ s E), (IH H).
Qed.

(** Splitting what was joined gives the lines back. *)
Lemma lines_joinLines (ls : list string) :
  ls <> [] ->
  Forall (fun l => Js.singleLine l = true) ls ->
  Js.lines (joinLines ls) = ls.
Proof.
  induction ls as [|l rest IH]; intros Hne Hall; [now elim Hne|].
  inversion Hall as [|? ? Hl Hrest]; subst.
  destruct rest as [|l' rest].
  - cbn. now apply lines_single.
  - cbn [joinLines]. rewrite lines_line_feed by trivial.
    f_equal. apply IH; [discriminate | trivial].
Qed.

Section Lines.

Context {ext : Externals}.

Lemma extractFromResponse_line (response : string) (regex : Js.RegExp) (capture : string) :
  Js.plainText (Js.literal regex) = true ->
  extractFromResponse response regex = inr capture ->
  capture <> EmptyString
  /\ Js.singleLine capture = true
  /\ In (Js.literal regex ++ capture)%string (Js.lines response).
Proof.
  intros Hp H. apply extractFromResponse_spec in H; trivial.
  destruct H as [Hf Hne]. apply firstCapture_Some in Hf.
  repeat split; trivial.
  apply lines_singleLine in Hf. now apply singleLine_suffix in Hf.
Qed.

End Lines.

(** X19: what [extractAddress] and [extractTxHash] return is never empty,
    holds no line terminator, and is the rest of a line of the response that
    starts with the literal of the extractor. *)
Theorem extracted_text_is_rest_of_a_line :
  forall (ext : Externals) (response : string),
    (forall this_address,
       extractAddress response = inr this_address ->
       this_address <> EmptyString
       /\ Js.singleLine this_address = true
       /\ In ("Contract address: " ++ this_address)%string (Js.lines response))
    /\ (forall txHash,
          extractTxHash response = inr txHash ->
          txHash <> EmptyString
          /\ Js.singleLine txHash = true
          /\ In ("Transaction hash: " ++ txHash)%string (Js.lines response)).
Proof.
  intros ext response. split.
  - intros this_address H.
    now apply (extractFromResponse_line response {| Js.literal := "Contract address: " |}).
  - intros txHash H.
    now apply (extractFromResponse_line response {| Js.literal := "Transaction hash: " |}).
Qed.

(** The hash read from the output of the sample invoke, followed by a line.
    The line feed after it is not part of it. *)
Lemma extracted_text_is_rest_of_a_line_witness :
  "0x2" <> EmptyString
  /\ Js.singleLine "0x2" = true
  /\ In ("Transaction hash: " ++ "0x2")%string
       (Js.lines (Sample.invokeOutput ++ LF ++ "Done.")).
Proof.
  exact (proj2 (@extracted_text_is_rest_of_a_line Sample.externals
                  (Sample.invokeOutput ++ LF ++ "Done.")) "0x2" eq_refl).
Defined.

(** X20: a text made of lines, among them one address line and one hash
    line, in either order, whose address and hash are not empty and hold no
    line terminator, is read back as that address and that hash, whatever the
    lines before (as long as none of them starts with one of the two literals)
    and after; and a hash line alone is enough for [extractTxHash]. *)
Theorem extraction_reads_back_address_and_hash :
  forall (ext : Externals) (pre post : list string) (this_address txHash : string),
    this_address <> EmptyString ->
    txHash <> EmptyString ->
    Js.singleLine this_address = true ->
    Js.singleLine txHash = true ->
    Forall (fun l => Js.singleLine l = true
                     /\ Js.stripPrefix "Contract address: " l = None
                     /\ Js.stripPrefix "Transaction hash: " l = None) pre ->
    Forall (fun l => Js.singleLine l = true) post ->
    extractDeployment
      (joinLines (pre ++ [("Contract address: " ++ this_address)%string;
                          ("Transaction hash: " ++ txHash)%string] ++ post))
    = inr (this_address, txHash)
    /\ extractDeployment
         (joinLines (pre ++ [("Transaction hash: " ++ txHash)%string;
                             ("Contract address: " ++ this_address)%string] ++ post))
       = inr (this_address, txHash)
    /\ extractTxHash
         (joinLines (pre ++ [("Transaction hash: " ++ txHash)%string] ++ post))
       = inr txHash.
Proof.
  intros ext pre post this_address txHash Ha Hh Hsa Hsh Hpre Hpost.
  assert (Hpre1 : Forall (fun l => Js.singleLine l = true) pre).
  { eapply Forall_impl; [|exact Hpre]. cbn. tauto. }
  assert (Hpre2 : Forall (fun l => Js.stripPrefix "Contract address: " l = None) pre).
  { eapply Forall_impl; [|exact Hpre]. cbn. tauto. }
  assert (Hpre3 : Forall (fun l => Js.stripPrefix "Transaction hash: " l = None) pre).
  { eapply Forall_impl; [|exact Hpre]. cbn. tauto. }
  assert (Hla : Js.singleLine ("Contract address: " ++ this_address) = true).
  { apply plain_singleLine_app; [reflexivity | exact Hsa]. }
  assert (Hlh : Js.singleLine ("Transaction hash: " ++ txHash) = true).
  { apply plain_singleLine_app; [reflexivity | exact Hsh]. }
  assert (Sa : forall rest, Js.firstCapture "Contract address: "
                              (("Contract address: " ++ this_address)%string :: rest)
                            = Some this_address).
  { intros rest. cbn [Js.firstCapture].
    now rewrite (proj2 (stripPrefix_Some "Contract address: " _ this_address) eq_refl). }
  assert (Sh : forall rest, Js.firstCapture "Transaction hash: "
                              (("Transaction hash: " ++ txHash)%string :: rest)
                            = Some txHash).
  { intros rest. cbn [Js.firstCapture].
    now rewrite (proj2 (stripPrefix_Some "Transaction hash: " _ txHash) eq_refl). }
  assert (Na : forall rest, Js.firstCapture "Transaction hash: "
                              (("Contract address: " ++ this_address)%string :: rest)
                            = Js.firstCapture "Transaction hash: " rest).
  { intros rest. reflexivity. }
  assert (Nh : forall rest, Js.firstCapture "Contract address: "
                              (("Transaction hash: " ++ txHash)%string :: rest)
                            = Js.firstCapture "Contract address: " rest).
  { intros rest. reflexivity. }
  split; [|split].
  - apply extractDeployment_returns. split.
    + apply extractFromResponse_spec; [reflexivity|]. split; trivial.
      rewrite lines_joinLines.
      * cbn [Js.literal]. rewrite firstCapture_skip by trivial. apply Sa.
      * destruct pre; discriminate.
      * apply Forall_app. split; trivial. repeat constructor; trivial.
    + apply extractFromResponse_spec; [reflexivity|]. split; trivial.
      rewrite lines_joinLines.
      * cbn [Js.literal]. rewrite firstCapture_skip by trivial.
        cbn [app]. rewrite Na. apply Sh.
      * destruct pre; discriminate.
      * apply Forall_app. split; trivial. repeat constructor; trivial.
  - apply extractDeployment_returns. split.
    + apply extractFromResponse_spec; [reflexivity|]. split; trivial.
      rewrite lines_joinLines.
      * cbn [Js.literal]. rewrite firstCapture_skip by trivial.
        cbn [app]. rewrite Nh. apply Sa.
      * destruct pre; discriminate.
      * apply Forall_app. split; trivial. repeat constructor; trivial.
    + apply extractFromResponse_spec; [reflexivity|]. split; trivial.
      rewrite lines_joinLines.
      * cbn [Js.literal]. rewrite firstCapture_skip by trivial. apply Sh.
      * destruct pre; discriminate.
      * apply Forall_app. split; trivial. repeat constructor; trivial.
  - apply extractFromResponse_spec; [reflexivity|]. split; trivial.
    rewrite lines_joinLines.
    + cbn [Js.literal]. rewrite firstCapture_skip by trivial. apply Sh.
    + destruct pre; discriminate.
    + apply Forall_app. split; trivial. repeat constructor; trivial.
Qed.

(** The output of the sample deployment, put together from its lines. *)
Lemma extraction_reads_back_address_and_hash_witness :
  extractDeployment (ext := Sample.externals)
    (joinLines (["Deploy transaction was sent."]
                ++ [("Contract address: " ++ "0x1")%string;
                    ("Transaction hash: " ++ "0x2")%string] ++ []))
  = inr ("0x1", "0x2").
Proof.
  refine (proj1 (@extraction_reads_back_address_and_hash Sample.externals
                   ["Deploy transaction was sent."] [] "0x1" "0x2" _ _ eq_refl eq_refl _ _)).
  - discriminate.
  - discriminate.
  - repeat constructor.
  - constructor.
Defined.
